(** * Polling with a watermark: the SQLite store, the poller and the handlers

    A shallow embedding of [cmd/http_server/main.go] (the last snapshot, with
    [initDB], [pollForPriorityChanges] and the two HTTP handlers).

    The SQLite store is modelled as three tables.  A table with an
    [INTEGER PRIMARY KEY] is a finite map from rowid to row; a table that has
    not been created yet is [None].  Every [database/sql] call that can
    return an error takes a fault flag, so that each [if err != nil] branch
    of the source can be reached.  A transaction works on a copy of the
    store which replaces the store at [Commit]; statements outside a
    transaction are committed one by one.  Transactions are serialised: an
    operation of the system is one step.  The [created_at] columns and the
    log lines are left out. *)

From stdpp Require Import base numbers option list gmap fin_maps sorting strings.

Local Open Scope Z_scope.

(** ** SQL values and rows *)

(** A bound text parameter as SQLite keeps it in a column of INTEGER
    affinity: text that reads as an integer (["7"], ["007"], [" 5"],
    ["1e2"], ["5.0"]) is stored as that integer, [VInt]; any other text is
    stored as a value that is no integer, [VText] (the text itself, or a
    real number for text such as ["1.5"]). *)
Inductive sqlval :=
  | VInt (z : Z)
  | VText (s : string).

Global Instance sqlval_eq_dec : EqDecision sqlval.
Proof. solve_decision. Defined.

(** A row of [orders]; the key of the map is the [id] column. *)
Record order_row := OrderRow {
  customer_name : string;
  product_name : string;
  (** the column is INTEGER: the form text is stored as SQLite reads it *)
  quantity : sqlval;
  shipping_address : string;
  priority : string
}.

(** A row of [priority_changes]; the key of the map is the [id] column. *)
Record priority_change := PriorityChange {
  order_id : sqlval;
  pc_priority : string;
  processed : bool
}.

(** [polling_state] holds at most the row with [id = 1] (its CHECK
    constraint); the inner option is that row's [last_processed_id]. *)
Record DB := MkDB {
  orders : option (gmap Z order_row);
  priority_changes : option (gmap Z priority_change);
  polling_state : option (option Z)
}.

Definition set_orders (db : DB) (os : gmap Z order_row) : DB :=
  MkDB (Some os) (priority_changes db) (polling_state db).

Definition set_priority_changes (db : DB) (pcs : gmap Z priority_change) : DB :=
  MkDB (orders db) (Some pcs) (polling_state db).

Definition set_polling_state (db : DB) (w : option Z) : DB :=
  MkDB (orders db) (priority_changes db) (Some w).

(** The store of a database file that does not exist yet. *)
Definition no_tables : DB := MkDB None None None.

(** ** AUTOINCREMENT *)

Definition max_int64 : Z := 9223372036854775807.

Definition max_rowid {A} (m : gmap Z A) : Z :=
  foldr Z.max 0 (map_to_list m).*1.

(** The rowid of the next inserted row: one more than the largest rowid.
    No row is ever deleted by this program, so [sqlite_sequence] always
    holds the largest rowid of the table.  At the largest 64-bit rowid the
    insert fails (SQLITE_FULL). *)
Definition next_rowid {A} (m : gmap Z A) : option Z :=
  if bool_decide (max_rowid m < max_int64) then Some (max_rowid m + 1) else None.

(** ** initDB *)

Record init_faults := InitFaults {
  fail_create_orders : bool;
  fail_create_priority_changes : bool;
  fail_create_polling_state : bool;
  fail_seed_polling_state : bool
}.

Definition no_init_faults : init_faults := InitFaults false false false false.

(** CREATE TABLE IF NOT EXISTS *)
Definition create_if_not_exists {A} (t : option A) (empty_table : A) : option A :=
  match t with
  | Some rows => Some rows
  | None => Some empty_table
  end.

(** INSERT OR IGNORE INTO polling_state (id, last_processed_id) VALUES (1, 0);
    [None] when the table is missing. *)
Definition seed_polling_state (t : option (option Z)) : option (option (option Z)) :=
  match t with
  | None => None
  | Some (Some w) => Some (Some (Some w))
  | Some None => Some (Some (Some 0))
  end.

(** [initDB] returns the store together with [true] when it returned an
    error.  Each statement is committed on its own, so the statements before
    a failing one keep their effect. *)
Definition initDB (f : init_faults) (db : DB) : DB * bool :=
  if fail_create_orders f then (db, true) else
  let db1 := MkDB (create_if_not_exists (orders db) ∅)
                  (priority_changes db) (polling_state db) in
  if fail_create_priority_changes f then (db1, true) else
  let db2 := MkDB (orders db1)
                  (create_if_not_exists (priority_changes db1) ∅)
                  (polling_state db1) in
  if fail_create_polling_state f then (db2, true) else
  let db3 := MkDB (orders db2) (priority_changes db2)
                  (create_if_not_exists (polling_state db2) None) in
  if fail_seed_polling_state f then (db3, true) else
  match seed_polling_state (polling_state db3) with
  | Some ps => (MkDB (orders db3) (priority_changes db3) ps, false)
  | None => (db3, true)
  end.

(** ** The poller *)

Definition ninja : string := "ninja".

(** [JOIN orders o ON pc.order_id = o.id WHERE o.product_name = 'ninja']:
    [orders.id] is the primary key, so an event joins with at most one
    order; an [order_id] kept as text equals no integer id. *)
Definition references_ninja (os : gmap Z order_row) (pc : priority_change) : bool :=
  match order_id pc with
  | VInt k =>
      match os !! k with
      | Some o => bool_decide (product_name o = ninja)
      | None => false
      end
  | VText _ => false
  end.

(** The WHERE clause of the poller's query on one row of the join. *)
Definition selectable (os : gmap Z order_row) (lastID : Z)
    (r : Z * priority_change) : Prop :=
  references_ninja os r.2 = true ∧ lastID < r.1 ∧ processed r.2 = false.

Global Instance selectable_dec os lastID r : Decision (selectable os lastID r).
Proof. unfold selectable. apply _. Defined.

(** ORDER BY pc.id ASC *)
Definition id_le (r1 r2 : Z * priority_change) : Prop := r1.1 ≤ r2.1.

Global Instance id_le_dec : RelDecision id_le.
Proof. intros r1 r2. unfold id_le. apply _. Defined.

(** The rows of the poller's query, in the order [rows.Next] yields them. *)
Definition select_changes (os : gmap Z order_row) (pcs : gmap Z priority_change)
    (lastID : Z) : list (Z * priority_change) :=
  merge_sort id_le (map_to_list (filter (selectable os lastID) pcs)).

(** A failing call can take the whole transaction with it: on an I/O error,
    a full disk or exhausted memory SQLite rolls the transaction back at the
    failing statement and is in autocommit mode again.  The source does not
    look: the statements it executes afterwards are committed one by one,
    and [tx.Commit] then fails, no transaction being active.  These flags
    say which failing calls cancel the transaction: the failing
    [rows.Next], and the failing UPDATE of a row.  (A failing UPDATE of the
    watermark that cancels the transaction leaves the same store as a
    failing commit.) *)
Record tx_cancels := TxCancels {
  next_cancels : bool;
  mark_cancels : Z → bool
}.

Definition no_cancels : tx_cancels := TxCancels false (λ _, false).

(** The errors of the calls of one cycle.  [fail_commit] is the error of
    [tx.Commit]: SQLite commits no transaction that it has cancelled, so a
    cancellation is part of a schedule only together with a failing commit,
    and where [tx.Commit] succeeds the failing calls were undone one
    statement at a time. *)
Record poll_faults := PollFaults {
  fail_begin : bool;
  fail_read_watermark : bool;
  fail_query : bool;
  (** [rows.Next] returns false on an iteration error, which the source
      does not look at ([rows.Err] is never called): the loop then ends
      after this many rows. *)
  rows_cut : option nat;
  fail_scan : Z → bool;
  fail_mark : Z → bool;
  fail_set_watermark : bool;
  fail_commit : bool;
  cancels : tx_cancels
}.

Definition no_poll_faults : poll_faults :=
  PollFaults false false false None (λ _, false) (λ _, false) false false no_cancels.

(** UPDATE priority_changes SET processed = TRUE WHERE id = ? *)
Definition mark_processed (pc : priority_change) : priority_change :=
  PriorityChange (order_id pc) (pc_priority pc) true.

(** The state of the [for rows.Next()] loop: the table as the connection
    sees it, [maxID], the ids whose UPDATE was executed without error (the
    rows the source logs as processed), and whether the transaction is
    still there. *)
Record loop_state := LoopState {
  tx_changes : gmap Z priority_change;
  maxID : Z;
  marked : list Z;
  tx_active : bool
}.

(** SQLite rolls the transaction back: the table is the one of before the
    cycle again; the variables of the loop keep their values. *)
Definition roll_back (pcs : gmap Z priority_change) (st : loop_state) : loop_state :=
  LoopState pcs (maxID st) (marked st) false.

(** One iteration of the loop body: both error branches [continue].  [pcs]
    is the table of before the cycle.  Once the transaction is cancelled,
    an UPDATE that succeeds is committed at once. *)
Definition process_row (f : poll_faults) (pcs : gmap Z priority_change)
    (st : loop_state) (r : Z * priority_change) : loop_state :=
  if fail_scan f r.1 then st
  else if fail_mark f r.1 then
    if fail_commit f && mark_cancels (cancels f) r.1 && tx_active st
    then roll_back pcs st else st
  else LoopState (alter mark_processed r.1 (tx_changes st)) r.1 (marked st ++ [r.1])
                 (tx_active st).

Definition delivered (f : poll_faults) (rows : list (Z * priority_change)) :
    list (Z * priority_change) :=
  match rows_cut f with
  | Some n => take n rows
  | None => rows
  end.

(** Whether the loop ends by a failing [rows.Next] rather than by the end
    of the rows. *)
Definition next_fails (f : poll_faults) (rows : list (Z * priority_change)) : bool :=
  match rows_cut f with
  | Some n => bool_decide (n ≤ length rows)%nat
  | None => false
  end.

Definition process_rows (f : poll_faults) (pcs : gmap Z priority_change)
    (rows : list (Z * priority_change)) : loop_state :=
  let st := foldl (process_row f pcs) (LoopState pcs 0 [] true) (delivered f rows) in
  if fail_commit f && next_cancels (cancels f) && next_fails f rows && tx_active st
  then roll_back pcs st else st.

(** How one iteration of the outer [for] ends.  After [WatermarkReadFailed]
    and [QueryFailed] the source [continue]s with the transaction neither
    committed nor rolled back: [defer tx.Rollback()] runs when the function
    returns, and the function never returns.  [CommitFailed] is every error
    of [tx.Commit], also the one of a transaction that SQLite cancelled
    before. *)
Inductive cycle_status :=
  | BeginFailed
  | WatermarkReadFailed
  | QueryFailed
  | CommitFailed
  | Committed.

Record cycle_report := CycleReport {
  status : cycle_status;
  (** ids whose UPDATE of the processed flag was executed without error,
      in execution order *)
  marked_ids : list Z;
  (** the value of the UPDATE of polling_state, when it was executed *)
  watermark_written : option Z
}.

Definition tx_left_open (s : cycle_status) : bool :=
  match s with
  | WatermarkReadFailed | QueryFailed => true
  | _ => false
  end.

(** One iteration of the [for] loop of [pollForPriorityChanges], without the
    sleep.  [tx2] is the store as the connection sees it before the commit:
    the store after a commit that succeeds, and also the store left by a
    cancelled transaction, whose later statements were committed one by
    one. *)
Definition poll_cycle (f : poll_faults) (db : DB) : DB * cycle_report :=
  if fail_begin f then (db, CycleReport BeginFailed [] None) else
  match (if fail_read_watermark f then None else mjoin (polling_state db)) with
  | None => (db, CycleReport WatermarkReadFailed [] None)
  | Some lastID =>
      match (if fail_query f then None else
             os ← orders db; pcs ← priority_changes db; Some (os, pcs)) with
      | None => (db, CycleReport QueryFailed [] None)
      | Some (os, pcs) =>
          let st := process_rows f pcs (select_changes os pcs lastID) in
          let tx1 := set_priority_changes db (tx_changes st) in
          let write := bool_decide (lastID < maxID st) && negb (fail_set_watermark f) in
          let tx2 := if write then set_polling_state tx1 (Some (maxID st)) else tx1 in
          let written := if write then Some (maxID st) else None in
          if fail_commit f
          then if tx_active st
               then (db, CycleReport CommitFailed (marked st) written)
               else (tx2, CycleReport CommitFailed (marked st) written)
          else (tx2, CycleReport Committed (marked st) written)
      end
  end.

(** The first iterations of the loop, one fault schedule per iteration. *)
Fixpoint pollForPriorityChanges (fs : list poll_faults) (db : DB) :
    DB * list cycle_report :=
  match fs with
  | [] => (db, [])
  | f :: fs' =>
      let '(db1, r) := poll_cycle f db in
      let '(db2, rs) := pollForPriorityChanges fs' db1 in
      (db2, r :: rs)
  end.

(** ** The HTTP handlers *)

Inductive http_method := GET | POST | PATCH | PUT | DELETE.

Global Instance http_method_eq_dec : EqDecision http_method.
Proof. solve_decision. Defined.

Definition StatusOK : Z := 200.
Definition StatusSeeOther : Z := 303.
Definition StatusBadRequest : Z := 400.
Definition StatusMethodNotAllowed : Z := 405.
Definition StatusInternalServerError : Z := 500.

(** A request to [/orders]: the five form values are the columns of the
    inserted row, the four texts as they are sent and [quantity] as SQLite
    reads its text for the INTEGER column. *)
Record orders_request := OrdersRequest {
  or_method : http_method;
  or_parse_fails : bool;
  or_form : order_row
}.

Record orders_faults := OrdersFaults {
  fail_prepare : bool;
  fail_exec : bool;
  fail_last_insert_id : bool
}.

Definition no_orders_faults : orders_faults := OrdersFaults false false false.

(** The handler of [/orders].  The insert is committed by [stmt.Exec]; a
    failure of [LastInsertId] after it answers 500 with the row in place. *)
Definition handle_orders (f : orders_faults) (req : orders_request) (db : DB) : DB * Z :=
  if bool_decide (or_method req ≠ POST) then (db, StatusMethodNotAllowed) else
  if or_parse_fails req then (db, StatusBadRequest) else
  match (if fail_prepare f then None else orders db) with
  | None => (db, StatusInternalServerError)
  | Some os =>
      match (if fail_exec f then None else next_rowid os) with
      | None => (db, StatusInternalServerError)
      | Some k =>
          let db1 := set_orders db (<[k := or_form req]> os) in
          if fail_last_insert_id f then (db1, StatusInternalServerError)
          else (db1, StatusSeeOther)
      end
  end.

(** A request to [/orders/priority]: [pr_id] is the form value [id] as
    SQLite reads it against an INTEGER column. *)
Record priority_request := PriorityRequest {
  pr_method : http_method;
  pr_parse_fails : bool;
  pr_id : sqlval
}.

Record priority_faults := PriorityFaults {
  fail_tx_begin : bool;
  fail_prepare_update : bool;
  fail_exec_update : bool;
  fail_prepare_insert : bool;
  fail_exec_insert : bool;
  fail_tx_commit : bool
}.

Definition no_priority_faults : priority_faults :=
  PriorityFaults false false false false false false.

Definition high : string := "high".

Definition set_high (o : order_row) : order_row :=
  OrderRow (customer_name o) (product_name o) (quantity o) (shipping_address o) high.

(** UPDATE orders SET priority = 'high' WHERE id = ?  (no row matched is
    not an error) *)
Definition update_priority (id : sqlval) (os : gmap Z order_row) : gmap Z order_row :=
  match id with
  | VInt k => alter set_high k os
  | VText _ => os
  end.

Definition order_exists (id : sqlval) (os : gmap Z order_row) : bool :=
  match id with
  | VInt k => bool_decide (is_Some (os !! k))
  | VText _ => false
  end.

(** INSERT INTO priority_changes (order_id, priority) VALUES (?, 'high');
    [processed] takes its default FALSE.  [foreign_keys] is the connection's
    [PRAGMA foreign_keys]: the clause [FOREIGN KEY(order_id) REFERENCES
    orders(id)] rejects the row only when it is on. *)
Definition insert_change (foreign_keys : bool) (id : sqlval)
    (os : gmap Z order_row) (pcs : gmap Z priority_change) :
    option (gmap Z priority_change) :=
  if foreign_keys && negb (order_exists id os) then None else
  k ← next_rowid pcs;
  Some (<[k := PriorityChange id high false]> pcs).

(** The connection is opened with the data source name ["./orders.db"],
    which sets no [_foreign_keys]; SQLite then leaves enforcement off. *)
Definition dsn_foreign_keys : bool := false.

(** The handler of [/orders/priority].  Every error branch returns, and the
    deferred [tx.Rollback()] drops the transaction's copy. *)
Definition handle_priority (foreign_keys : bool) (f : priority_faults)
    (req : priority_request) (db : DB) : DB * Z :=
  if bool_decide (pr_method req ≠ PATCH) then (db, StatusMethodNotAllowed) else
  if pr_parse_fails req then (db, StatusBadRequest) else
  if fail_tx_begin f then (db, StatusInternalServerError) else
  match (if fail_prepare_update f then None else orders db) with
  | None => (db, StatusInternalServerError)
  | Some os =>
      if fail_exec_update f then (db, StatusInternalServerError) else
      let os1 := update_priority (pr_id req) os in
      match (if fail_prepare_insert f then None else priority_changes db) with
      | None => (db, StatusInternalServerError)
      | Some pcs =>
          match (if fail_exec_insert f then None
                 else insert_change foreign_keys (pr_id req) os1 pcs) with
          | None => (db, StatusInternalServerError)
          | Some pcs1 =>
              if fail_tx_commit f then (db, StatusInternalServerError)
              else (MkDB (Some os1) (Some pcs1) (polling_state db), StatusOK)
          end
      end
  end.

(** ** The system *)

(** The operations that reach the store: [main] calling [initDB] when the
    process starts, the two handlers, and one iteration of the poller. *)
Inductive op :=
  | Startup (f : init_faults)
  | Orders (f : orders_faults) (req : orders_request)
  | Priority (f : priority_faults) (req : priority_request)
  | Poll (f : poll_faults).

Definition step (foreign_keys : bool) (db : DB) (o : op) : DB :=
  match o with
  | Startup f => (initDB f db).1
  | Orders f req => (handle_orders f req db).1
  | Priority f req => (handle_priority foreign_keys f req db).1
  | Poll f => (poll_cycle f db).1
  end.

Definition run (foreign_keys : bool) (db : DB) (ops : list op) : DB :=
  foldl (step foreign_keys) db ops.

(** ** Reading the store *)

Definition watermark (db : DB) : option Z := mjoin (polling_state db).

Definition lookup_change (db : DB) (i : Z) : option priority_change :=
  pcs ← priority_changes db; pcs !! i.

Definition lookup_order (db : DB) (k : Z) : option order_row :=
  os ← orders db; os !! k.

(** The filter predicate of the poller on an event of the store. *)
Definition matches_filter (db : DB) (pc : priority_change) : bool :=
  match orders db with
  | Some os => references_ninja os pc
  | None => false
  end.

Definition fresh_store : DB := (initDB no_init_faults no_tables).1.

Definition ninja_order : order_row :=
  OrderRow "alice" "ninja" (VInt 1) "1 Main St" "normal".
Definition widget_order : order_row :=
  OrderRow "bob" "widget" (VInt 2) "2 Side St" "normal".

Definition post (o : order_row) : op := Orders no_orders_faults (OrdersRequest POST false o).
Definition escalate (k : Z) : op :=
  Priority no_priority_faults (PriorityRequest PATCH false (VInt k)).
Definition poll_ok : op := Poll no_poll_faults.

(** Two escalations of one ninja order, not yet polled. *)
Definition two_pending : DB :=
  run dsn_foreign_keys fresh_store [post ninja_order; escalate 1; escalate 1].

(** A widget order and a ninja order, each escalated once, not yet polled:
    event 1 does not match the filter, event 2 does. *)
Definition widget_then_ninja : DB :=
  run dsn_foreign_keys fresh_store
      [post widget_order; post ninja_order; escalate 1; escalate 2].

(** A cycle in which [rows.Scan] fails on the row with id [k] only. *)
Definition scan_fails_on (k : Z) : poll_faults :=
  PollFaults false false false None (λ i, bool_decide (i = k)) (λ _, false) false false
             no_cancels.

(** A cycle in which the UPDATE of the row with id [k] fails, and nothing
    else. *)
Definition update_fails_on (k : Z) : poll_faults :=
  PollFaults false false false None (λ _, false) (λ i, bool_decide (i = k)) false false
             no_cancels.

(** A cycle in which [rows.Next] fails after [n] rows with an error by
    which SQLite rolls the transaction back; [tx.Commit] then fails. *)
Definition next_cancels_after (n : nat) : poll_faults :=
  PollFaults false false false (Some n) (λ _, false) (λ _, false) false true
             (TxCancels true (λ _, false)).

(** A cycle whose commit fails, and nothing else. *)
Definition commit_fails : poll_faults :=
  PollFaults false false false None (λ _, false) (λ _, false) false true no_cancels.

(** No failing call of the cycle cancels the transaction. *)
Definition never_cancels (f : poll_faults) : Prop :=
  next_cancels (cancels f) = false ∧ ∀ i, mark_cancels (cancels f) i = false.

(** One ninja order with priority normal, not escalated. *)
Definition one_normal_order : DB := run dsn_foreign_keys fresh_store [post ninja_order].

(** The invariant of the watermark: every event at or below it whose order
    satisfies the filter is processed. *)
Definition watermark_inv (db : DB) : Prop :=
  ∀ W i pc,
    watermark db = Some W → lookup_change db i = Some pc → i ≤ W →
    matches_filter db pc = true → processed pc = true.

(** The ids among [rows] whose scan and whose UPDATE both succeed. *)
Definition row_ok (f : poll_faults) (i : Z) : Prop :=
  fail_scan f i = false ∧ fail_mark f i = false.

Global Instance row_ok_dec f i : Decision (row_ok f i).
Proof. unfold row_ok. apply _. Defined.

Definition ok_ids (f : poll_faults) (rows : list (Z * priority_change)) : list Z :=
  filter (row_ok f) rows.*1.

(** What a committed cycle did, in terms of the store before it. *)
Record committed_cycle (f : poll_faults) (db db' : DB) (rep : cycle_report)
    (os : gmap Z order_row) (pcs pcs' : gmap Z priority_change) (W : Z) : Prop := {
  cc_orders : orders db = Some os;
  cc_changes : priority_changes db = Some pcs;
  cc_watermark : watermark db = Some W;
  cc_marked : marked_ids rep = ok_ids f (delivered f (select_changes os pcs W));
  cc_written :
    watermark_written rep =
    if bool_decide (W < default 0 (last (marked_ids rep))) && negb (fail_set_watermark f)
    then Some (default 0 (last (marked_ids rep))) else None;
  cc_store :
    db' = MkDB (Some os) (Some pcs') (Some (Some (default W (watermark_written rep))));
  cc_lookup : ∀ i,
    pcs' !! i =
    if decide (i ∈ marked_ids rep) then mark_processed <$> pcs !! i else pcs !! i;
  cc_no_cycle_fault :
    fail_begin f = false ∧ fail_read_watermark f = false ∧
    fail_query f = false ∧ fail_commit f = false
}.

(** What a cycle that changed the store did, committed or cancelled: the
    rows whose flag is set in the store after it are among the rows it
    marked. *)
Record cycle_effect (f : poll_faults) (db db' : DB) (rep : cycle_report)
    (os : gmap Z order_row) (pcs pcs' : gmap Z priority_change) (W : Z) : Prop := {
  ce_orders : orders db = Some os;
  ce_changes : priority_changes db = Some pcs;
  ce_watermark : watermark db = Some W;
  ce_marked : marked_ids rep = ok_ids f (delivered f (select_changes os pcs W));
  ce_written :
    watermark_written rep =
    if bool_decide (W < default 0 (last (marked_ids rep))) && negb (fail_set_watermark f)
    then Some (default 0 (last (marked_ids rep))) else None;
  ce_store :
    db' = MkDB (Some os) (Some pcs') (Some (Some (default W (watermark_written rep))));
  ce_lookup : ∀ i,
    pcs' !! i = pcs !! i ∨
    (i ∈ marked_ids rep ∧ pcs' !! i = mark_processed <$> pcs !! i)
}.

(** The store after a successful escalation that inserted row [k]. *)
Definition escalated (req : priority_request) (os : gmap Z order_row)
    (pcs : gmap Z priority_change) (k : Z) (db : DB) : DB :=
  MkDB (Some (update_priority (pr_id req) os))
       (Some (<[k := PriorityChange (pr_id req) high false]> pcs))
       (polling_state db).

(** The watermark is 0 or the id of an event that is processed. *)
Definition watermark_is_processed_id (db : DB) : Prop :=
  ∀ W, watermark db = Some W →
       W = 0 ∨ (0 < W ∧ ∃ pc, lookup_change db W = Some pc ∧ processed pc = true).

(** The watermark is 0 or the id of an event of the store. *)
Definition watermark_is_event_id (db : DB) : Prop :=
  ∀ W, watermark db = Some W → W = 0 ∨ (0 < W ∧ is_Some (lookup_change db W)).

(** Every event names an order of the store. *)
Definition references_exist (db : DB) : Prop :=
  ∀ i pc, lookup_change db i = Some pc →
          ∃ k, order_id pc = VInt k ∧ is_Some (lookup_order db k).

(** A store with its watermark row in which the three invariants hold. *)
Definition store_ok (db : DB) : Prop :=
  is_Some (watermark db) ∧ watermark_inv db ∧
  watermark_is_processed_id db ∧ references_exist db.

(** An operation that triggers none of the ways to lose an event: a cycle
    of the poller in which no scan and no UPDATE of a row fails and no
    failing [rows.Next] cancels the transaction, an escalation that names
    an order of the store; startup and the handler of [/orders] are free. *)
Definition op_without_defect (db : DB) (o : op) : Prop :=
  match o with
  | Poll f => (∀ i, row_ok f i) ∧ next_cancels (cancels f) = false
  | Priority f req => ∃ k, pr_id req = VInt k ∧ is_Some (lookup_order db k)
  | _ => True
  end.

Fixpoint run_without_defect (fk : bool) (db : DB) (ops : list op) : Prop :=
  match ops with
  | [] => True
  | o :: ops' => op_without_defect db o ∧ run_without_defect fk (step fk db o) ops'
  end.

(** * Properties *)

(** ** The query *)

Global Instance id_le_trans : Transitive id_le.
Proof. intros x y z. unfold id_le. lia. Qed.

Global Instance id_le_total : Total id_le.
Proof. intros x y. unfold id_le. lia. Qed.

Lemma elem_of_select_changes os pcs lastID i pc :
  (i, pc) ∈ select_changes os pcs lastID ↔
  pcs !! i = Some pc ∧ selectable os lastID (i, pc).
Proof.
  unfold select_changes.
  by rewrite merge_sort_Permutation, elem_of_map_to_list, map_lookup_filter_Some.
Qed.

Lemma select_changes_sorted os pcs lastID :
  StronglySorted id_le (select_changes os pcs lastID).
Proof. apply StronglySorted_merge_sort; apply _. Qed.

Lemma select_changes_NoDup os pcs lastID :
  NoDup (select_changes os pcs lastID).*1.
Proof.
  unfold select_changes. rewrite merge_sort_Permutation.
  apply NoDup_fst_map_to_list.
Qed.

Lemma select_changes_ids_sorted os pcs lastID :
  StronglySorted Z.le (select_changes os pcs lastID).*1.
Proof.
  generalize (select_changes_sorted os pcs lastID).
  induction 1 as [|r rows _ IH Hall]; simpl; constructor; [done|].
  apply Forall_fmap. eapply Forall_impl; [exact Hall|]. by intros [].
Qed.

Lemma StronglySorted_sublist {A} (R : relation A) (l k : list A) :
  l `sublist_of` k → StronglySorted R k → StronglySorted R l.
Proof.
  induction 1 as [|x l k Hsub IH|x l k Hsub IH]; intros Hk.
  - constructor.
  - apply StronglySorted_cons in Hk as [Hall Hk].
    apply StronglySorted_cons. split; [|by apply IH].
    apply Forall_forall. intros y Hy.
    apply (proj1 (Forall_forall _ _) Hall). by eapply sublist_subseteq.
  - apply StronglySorted_cons in Hk as [_ Hk]. by apply IH.
Qed.

Lemma sorted_last_max (l : list Z) (m i : Z) :
  StronglySorted Z.le l → last l = Some m → i ∈ l → i ≤ m.
Proof.
  intros Hs [l' ->]%last_Some [Hi | ->%list_elem_of_singleton]%elem_of_app; [|lia].
  eapply (StronglySorted_app_1_elem_of Z.le l' [m]); [done..|].
  by apply list_elem_of_singleton.
Qed.

Lemma delivered_sublist f rows : delivered f rows `sublist_of` rows.
Proof. unfold delivered. destruct (rows_cut f); [apply sublist_take|done]. Qed.

Lemma ok_ids_sublist f rows : ok_ids f (delivered f rows) `sublist_of` rows.*1.
Proof.
  unfold ok_ids. etrans; [apply sublist_filter|].
  apply fmap_sublist, delivered_sublist.
Qed.

Lemma elem_of_ok_ids f rows i :
  i ∈ ok_ids f (delivered f rows) → row_ok f i ∧ ∃ pc, (i, pc) ∈ rows.
Proof.
  unfold ok_ids. intros [Hok Hi]%list_elem_of_filter. split; [done|].
  apply list_elem_of_fmap in Hi as ([j pc] & -> & Hin).
  exists pc. by eapply sublist_subseteq; [apply delivered_sublist|].
Qed.

(** ** The loop over the rows *)

Lemma mark_processed_idemp pc : mark_processed (mark_processed pc) = mark_processed pc.
Proof. done. Qed.

Lemma process_row_ok f pcs st r :
  row_ok f r.1 →
  process_row f pcs st r =
  LoopState (alter mark_processed r.1 (tx_changes st)) r.1 (marked st ++ [r.1])
            (tx_active st).
Proof. intros [Hs Hm]. unfold process_row. by rewrite Hs, Hm. Qed.

Lemma process_row_skip f pcs st r :
  ¬ row_ok f r.1 →
  process_row f pcs st r = st ∨
  (fail_commit f = true ∧ fail_mark f r.1 = true ∧
   mark_cancels (cancels f) r.1 = true ∧ process_row f pcs st r = roll_back pcs st).
Proof.
  unfold row_ok, process_row. intros Hno.
  destruct (fail_scan f r.1); [by left|].
  destruct (fail_mark f r.1); [|by destruct Hno].
  destruct (fail_commit f); [|by left].
  destruct (mark_cancels (cancels f) r.1); [|by left].
  destruct (tx_active st); [by right|by left].
Qed.

Lemma ok_ids_cons_ok f r rows :
  row_ok f r.1 → ok_ids f (r :: rows) = r.1 :: ok_ids f rows.
Proof. intros Hok. unfold ok_ids. simpl. by rewrite filter_cons_True. Qed.

Lemma ok_ids_cons_skip f r rows :
  ¬ row_ok f r.1 → ok_ids f (r :: rows) = ok_ids f rows.
Proof. intros Hno. unfold ok_ids. simpl. by rewrite filter_cons_False. Qed.

Lemma foldl_process_row_marked f pcs rows st :
  marked (foldl (process_row f pcs) st rows) = marked st ++ ok_ids f rows.
Proof.
  revert st. induction rows as [|r rows IH]; intros st; simpl.
  - by rewrite app_nil_r.
  - rewrite IH. destruct (decide (row_ok f r.1)) as [Hok|Hno].
    + rewrite process_row_ok, ok_ids_cons_ok by done. simpl.
      by rewrite <-app_assoc.
    + rewrite ok_ids_cons_skip by done.
      by destruct (process_row_skip f pcs st r Hno) as [->|(_ & _ & _ & ->)].
Qed.

Lemma foldl_process_row_maxID f pcs rows st :
  maxID (foldl (process_row f pcs) st rows)
  = default (maxID st) (last (ok_ids f rows)).
Proof.
  revert st. induction rows as [|r rows IH]; intros st; simpl; [done|].
  rewrite IH. destruct (decide (row_ok f r.1)) as [Hok|Hno].
  - rewrite process_row_ok, ok_ids_cons_ok by done. simpl.
    rewrite last_cons. by destruct (last (ok_ids f rows)).
  - rewrite ok_ids_cons_skip by done.
    by destruct (process_row_skip f pcs st r Hno) as [->|(_ & _ & _ & ->)].
Qed.

(** Whatever is cancelled, a row of the table is as before the cycle or is
    a marked row with its flag set. *)
Lemma foldl_process_row_weak f pcs rows st :
  (∀ i, tx_changes st !! i = pcs !! i ∨
        (i ∈ marked st ∧ tx_changes st !! i = mark_processed <$> pcs !! i)) →
  ∀ i, tx_changes (foldl (process_row f pcs) st rows) !! i = pcs !! i ∨
       (i ∈ marked (foldl (process_row f pcs) st rows) ∧
        tx_changes (foldl (process_row f pcs) st rows) !! i
        = mark_processed <$> pcs !! i).
Proof.
  revert st. induction rows as [|r rows IH]; intros st Hst; [done|].
  simpl. apply IH. intros i.
  destruct (decide (row_ok f r.1)) as [Hok|Hno].
  - rewrite process_row_ok by done. simpl. rewrite lookup_alter.
    destruct (decide (r.1 = i)) as [<-|Hne].
    + right. split; [apply elem_of_app; right; apply list_elem_of_here|].
      destruct (Hst r.1) as [->|[_ ->]]; [done|].
      by destruct (pcs !! r.1).
    + destruct (Hst i) as [?|[? ?]]; [by left|right].
      split; [|done]. apply elem_of_app. by left.
  - destruct (process_row_skip f pcs st r Hno) as [->|(_ & _ & _ & ->)]; [done|].
    by left.
Qed.

(** As long as nothing cancels the transaction the table holds exactly the
    marked rows with their flag set. *)
Lemma foldl_process_row_alive f pcs rows st :
  (∀ i, fail_commit f && mark_cancels (cancels f) i && fail_mark f i = false) →
  tx_active (foldl (process_row f pcs) st rows) = tx_active st ∧
  ∀ i, tx_changes (foldl (process_row f pcs) st rows) !! i =
       if decide (i ∈ ok_ids f rows) then mark_processed <$> tx_changes st !! i
       else tx_changes st !! i.
Proof.
  intros Hnc. revert st. induction rows as [|r rows IH]; intros st.
  - split; [done|]. intros i. rewrite decide_False; [done|]. apply not_elem_of_nil.
  - simpl. destruct (decide (row_ok f r.1)) as [Hok|Hno].
    + destruct (IH (process_row f pcs st r)) as [Ha Hl].
      rewrite process_row_ok in Ha, Hl by done. rewrite process_row_ok by done.
      split; [done|]. intros i. rewrite Hl, ok_ids_cons_ok by done. simpl.
      rewrite lookup_alter.
      destruct (decide (i = r.1)) as [->|Hne].
      * rewrite (decide_True (P := r.1 = r.1)) by done.
        rewrite (decide_True (P := _ ∈ _ :: _)) by apply list_elem_of_here.
        destruct (decide _); [|done].
        by destruct (tx_changes st !! r.1).
      * rewrite (decide_False (P := r.1 = i)) by done.
        destruct (decide (i ∈ ok_ids f rows)).
        -- rewrite decide_True; [done|]. by apply list_elem_of_further.
        -- rewrite decide_False; [done|]. by intros [?|?]%elem_of_cons.
    + destruct (process_row_skip f pcs st r Hno) as [->|(Hc & Hm & Hk & _)].
      * rewrite ok_ids_cons_skip by done. apply IH.
      * specialize (Hnc r.1). by rewrite Hc, Hm, Hk in Hnc.
Qed.

Lemma process_rows_marked f pcs rows :
  marked (process_rows f pcs rows) = ok_ids f (delivered f rows).
Proof.
  unfold process_rows. destruct (_ && _); simpl; by rewrite foldl_process_row_marked.
Qed.

Lemma process_rows_maxID f pcs rows :
  maxID (process_rows f pcs rows) = default 0 (last (ok_ids f (delivered f rows))).
Proof.
  unfold process_rows. destruct (_ && _); simpl; by rewrite foldl_process_row_maxID.
Qed.

Lemma process_rows_weak f pcs rows i :
  tx_changes (process_rows f pcs rows) !! i = pcs !! i ∨
  (i ∈ marked (process_rows f pcs rows) ∧
   tx_changes (process_rows f pcs rows) !! i = mark_processed <$> pcs !! i).
Proof.
  unfold process_rows. destruct (_ && _); simpl; [by left|].
  apply foldl_process_row_weak. by left.
Qed.

Lemma process_rows_alive f pcs rows :
  (∀ i, fail_commit f && mark_cancels (cancels f) i && fail_mark f i = false) →
  fail_commit f && next_cancels (cancels f) = false →
  tx_active (process_rows f pcs rows) = true ∧
  ∀ i, tx_changes (process_rows f pcs rows) !! i =
       if decide (i ∈ marked (process_rows f pcs rows))
       then mark_processed <$> pcs !! i else pcs !! i.
Proof.
  intros Hnc Hn. rewrite process_rows_marked. unfold process_rows. rewrite Hn. simpl.
  apply (foldl_process_row_alive f pcs (delivered f rows) (LoopState pcs 0 [] true) Hnc).
Qed.

(** A schedule whose commit succeeds has no cancellation. *)
Lemma process_rows_commit_ok f pcs rows :
  fail_commit f = false →
  tx_active (process_rows f pcs rows) = true ∧
  ∀ i, tx_changes (process_rows f pcs rows) !! i =
       if decide (i ∈ marked (process_rows f pcs rows))
       then mark_processed <$> pcs !! i else pcs !! i.
Proof.
  intros Hc. apply process_rows_alive; [intros i|]; by rewrite Hc.
Qed.

(** ** One cycle of the poller *)

Lemma watermark_Some db W : watermark db = Some W ↔ polling_state db = Some (Some W).
Proof.
  unfold watermark. destruct (polling_state db) as [[w|]|]; simpl; naive_solver.
Qed.

(** The store as the connection sees it before the commit, in terms of the
    store before the cycle. *)
Lemma tx_store_effect f db os pcs W s :
  orders db = Some os → priority_changes db = Some pcs → watermark db = Some W →
  cycle_effect f db
    (if bool_decide (W < maxID (process_rows f pcs (select_changes os pcs W)))
        && negb (fail_set_watermark f)
     then set_polling_state
            (set_priority_changes db
               (tx_changes (process_rows f pcs (select_changes os pcs W))))
            (Some (maxID (process_rows f pcs (select_changes os pcs W))))
     else set_priority_changes db
            (tx_changes (process_rows f pcs (select_changes os pcs W))))
    (CycleReport s (marked (process_rows f pcs (select_changes os pcs W)))
       (if bool_decide (W < maxID (process_rows f pcs (select_changes os pcs W)))
           && negb (fail_set_watermark f)
        then Some (maxID (process_rows f pcs (select_changes os pcs W))) else None))
    os pcs (tx_changes (process_rows f pcs (select_changes os pcs W))) W.
Proof.
  intros Hos Hpcs HW.
  set (st := process_rows f pcs (select_changes os pcs W)).
  assert (Hmarked : marked st = ok_ids f (delivered f (select_changes os pcs W)))
    by apply process_rows_marked.
  assert (Hmax : maxID st = default 0 (last (marked st))).
  { rewrite Hmarked. apply process_rows_maxID. }
  split; simpl; try done.
  - by rewrite <-Hmax.
  - apply watermark_Some in HW.
    destruct (bool_decide _ && _); unfold set_polling_state, set_priority_changes;
      simpl; by rewrite Hos, ?HW.
  - intros i. apply process_rows_weak.
Qed.

(** A cycle leaves the store as it was, or as its statements made it. *)
Lemma cycle_effect_cases f db :
  (poll_cycle f db).1 = db ∨
  ∃ os pcs pcs' W,
    cycle_effect f db (poll_cycle f db).1 (poll_cycle f db).2 os pcs pcs' W.
Proof.
  unfold poll_cycle.
  destruct (fail_begin f); [by left|].
  destruct (fail_read_watermark f); [by left|].
  destruct (mjoin (polling_state db)) as [W|] eqn:HW; [|by left].
  destruct (fail_query f); [by left|].
  destruct (orders db) as [os|] eqn:Hos; [|by left]. simpl.
  destruct (priority_changes db) as [pcs|] eqn:Hpcs; [|by left]. simpl.
  destruct (fail_commit f); [destruct (tx_active _); [by left|]|];
    right; eexists os, pcs, _, W; by apply tx_store_effect.
Qed.

(** Before its first UPDATE a cycle has changed nothing. *)
Lemma poll_cycle_early_failure f db :
  status (poll_cycle f db).2 = BeginFailed ∨
  status (poll_cycle f db).2 = WatermarkReadFailed ∨
  status (poll_cycle f db).2 = QueryFailed →
  (poll_cycle f db).1 = db.
Proof.
  unfold poll_cycle.
  destruct (fail_begin f); [done|].
  destruct (if fail_read_watermark f then _ else _); [|done].
  destruct (if fail_query f then _ else _) as [[os pcs]|]; [|done].
  destruct (fail_commit f); [destruct (tx_active _)|]; simpl; by intros [?|[?|?]].
Qed.

(** When no failing call cancels the transaction, a cycle that does not end
    in a successful commit leaves the store as it was. *)
Lemma poll_cycle_not_Committed f db :
  (∀ i, fail_commit f && mark_cancels (cancels f) i && fail_mark f i = false) →
  fail_commit f && next_cancels (cancels f) = false →
  status (poll_cycle f db).2 ≠ Committed → (poll_cycle f db).1 = db.
Proof.
  intros Hnc Hn. unfold poll_cycle.
  destruct (fail_begin f); [done|].
  destruct (if fail_read_watermark f then _ else _) as [W|]; [|done].
  destruct (if fail_query f then _ else _) as [[os pcs]|]; [|done].
  destruct (process_rows_alive f pcs (select_changes os pcs W) Hnc Hn) as [-> _].
  by destruct (fail_commit f).
Qed.

Lemma poll_cycle_Committed f db :
  status (poll_cycle f db).2 = Committed →
  ∃ os pcs pcs' W,
    committed_cycle f db (poll_cycle f db).1 (poll_cycle f db).2 os pcs pcs' W.
Proof.
  unfold poll_cycle.
  destruct (fail_begin f) eqn:Hb; [done|].
  destruct (fail_read_watermark f) eqn:Hr; [done|].
  destruct (mjoin (polling_state db)) as [W|] eqn:HW; [|done].
  destruct (fail_query f) eqn:Hq; [done|].
  destruct (orders db) as [os|] eqn:Hos; [|done]. simpl.
  destruct (priority_changes db) as [pcs|] eqn:Hpcs; [|done]. simpl.
  destruct (fail_commit f) eqn:Hc; [by destruct (tx_active _)|]. intros _. simpl.
  destruct (tx_store_effect f db os pcs W Committed Hos Hpcs HW)
    as [_ _ _ Hmarked Hwritten Hstore _].
  eexists os, pcs, _, W. split; try done.
  intros i. simpl.
  by destruct (process_rows_commit_ok f pcs (select_changes os pcs W) Hc) as [_ ->].
Qed.

Lemma committed_cycle_effect f db db' rep os pcs pcs' W :
  committed_cycle f db db' rep os pcs pcs' W →
  cycle_effect f db db' rep os pcs pcs' W.
Proof.
  intros [? ? ? ? ? ? Hl _]. split; try done.
  intros i. rewrite Hl. destruct (decide _); [by right|by left].
Qed.

Section effect.
Context {f : poll_faults} {db db' : DB} {rep : cycle_report}.
Context {os : gmap Z order_row} {pcs pcs' : gmap Z priority_change} {W : Z}.
Context (Hce : cycle_effect f db db' rep os pcs pcs' W).

(** Every marked row was returned by the query and had no row fault. *)
Lemma ce_marked_selected i :
  i ∈ marked_ids rep →
  row_ok f i ∧ ∃ pc, pcs !! i = Some pc ∧ selectable os W (i, pc).
Proof.
  rewrite (ce_marked _ _ _ _ _ _ _ _ Hce).
  intros [Hok [pc Hin]]%elem_of_ok_ids. split; [done|].
  exists pc. by apply elem_of_select_changes.
Qed.

Lemma ce_marked_sorted : StronglySorted Z.le (marked_ids rep).
Proof.
  rewrite (ce_marked _ _ _ _ _ _ _ _ Hce).
  eapply StronglySorted_sublist; [apply ok_ids_sublist|].
  apply select_changes_ids_sorted.
Qed.

(** [maxID] at the end of the loop: the largest marked id, or 0. *)
Lemma ce_marked_le_last i :
  i ∈ marked_ids rep → i ≤ default 0 (last (marked_ids rep)).
Proof.
  intros Hi. destruct (last (marked_ids rep)) as [m|] eqn:Hlast; simpl.
  - eapply sorted_last_max; [apply ce_marked_sorted|done..].
  - apply last_None in Hlast. rewrite Hlast in Hi. by apply not_elem_of_nil in Hi.
Qed.

Lemma ce_orders' : orders db' = Some os.
Proof. by rewrite (ce_store _ _ _ _ _ _ _ _ Hce). Qed.

Lemma ce_changes' : priority_changes db' = Some pcs'.
Proof. by rewrite (ce_store _ _ _ _ _ _ _ _ Hce). Qed.

Lemma ce_watermark' : watermark db' = Some (default W (watermark_written rep)).
Proof. by rewrite (ce_store _ _ _ _ _ _ _ _ Hce). Qed.

Lemma ce_written_gt m : watermark_written rep = Some m → W < m.
Proof.
  rewrite (ce_written _ _ _ _ _ _ _ _ Hce).
  destruct (bool_decide _) eqn:Hlt; simpl; [|done].
  apply bool_decide_eq_true in Hlt.
  destruct (fail_set_watermark f); simpl; [done|]. by intros [= <-].
Qed.

Lemma ce_written_last m :
  watermark_written rep = Some m → m = default 0 (last (marked_ids rep)).
Proof.
  rewrite (ce_written _ _ _ _ _ _ _ _ Hce).
  destruct (_ && _); [|done]. by intros [= <-].
Qed.

Lemma ce_watermark_mono W' : watermark db' = Some W' → W ≤ W'.
Proof.
  rewrite ce_watermark'. intros [= <-].
  destruct (watermark_written rep) as [m|] eqn:Hw; simpl; [|lia].
  apply ce_written_gt in Hw. lia.
Qed.

Lemma ce_lookup_change i :
  lookup_change db' i = lookup_change db i ∨
  (i ∈ marked_ids rep ∧ lookup_change db' i = mark_processed <$> lookup_change db i).
Proof.
  unfold lookup_change. rewrite ce_changes', (ce_changes _ _ _ _ _ _ _ _ Hce). simpl.
  apply (ce_lookup _ _ _ _ _ _ _ _ Hce).
Qed.
End effect.

Section committed.
Context {f : poll_faults} {db db' : DB} {rep : cycle_report}.
Context {os : gmap Z order_row} {pcs pcs' : gmap Z priority_change} {W : Z}.
Context (Hcc : committed_cycle f db db' rep os pcs pcs' W).

(** Every marked row was returned by the query and had no row fault. *)
Lemma cc_marked_selected i :
  i ∈ marked_ids rep →
  row_ok f i ∧ ∃ pc, pcs !! i = Some pc ∧ selectable os W (i, pc).
Proof.
  rewrite (cc_marked _ _ _ _ _ _ _ _ Hcc).
  intros [Hok [pc Hin]]%elem_of_ok_ids. split; [done|].
  exists pc. by apply elem_of_select_changes.
Qed.

Lemma cc_marked_sorted : StronglySorted Z.le (marked_ids rep).
Proof.
  rewrite (cc_marked _ _ _ _ _ _ _ _ Hcc).
  eapply StronglySorted_sublist; [apply ok_ids_sublist|].
  apply select_changes_ids_sorted.
Qed.

(** [maxID] at the end of the loop: the largest marked id, or 0. *)
Lemma cc_marked_le_last i :
  i ∈ marked_ids rep → i ≤ default 0 (last (marked_ids rep)).
Proof.
  intros Hi. destruct (last (marked_ids rep)) as [m|] eqn:Hlast; simpl.
  - eapply sorted_last_max; [apply cc_marked_sorted|done..].
  - apply last_None in Hlast. rewrite Hlast in Hi. by apply not_elem_of_nil in Hi.
Qed.

Lemma cc_orders' : orders db' = Some os.
Proof. by rewrite (cc_store _ _ _ _ _ _ _ _ Hcc). Qed.

Lemma cc_changes' : priority_changes db' = Some pcs'.
Proof. by rewrite (cc_store _ _ _ _ _ _ _ _ Hcc). Qed.

Lemma cc_watermark' : watermark db' = Some (default W (watermark_written rep)).
Proof. by rewrite (cc_store _ _ _ _ _ _ _ _ Hcc). Qed.

Lemma cc_written_gt m : watermark_written rep = Some m → W < m.
Proof.
  rewrite (cc_written _ _ _ _ _ _ _ _ Hcc).
  destruct (bool_decide _) eqn:Hlt; simpl; [|done].
  apply bool_decide_eq_true in Hlt.
  destruct (fail_set_watermark f); simpl; [done|]. by intros [= <-].
Qed.

Lemma cc_written_last m :
  watermark_written rep = Some m → m = default 0 (last (marked_ids rep)).
Proof.
  rewrite (cc_written _ _ _ _ _ _ _ _ Hcc).
  destruct (_ && _); [|done]. by intros [= <-].
Qed.

Lemma cc_watermark_mono W' : watermark db' = Some W' → W ≤ W'.
Proof.
  rewrite cc_watermark'. intros [= <-].
  destruct (watermark_written rep) as [m|] eqn:Hw; simpl; [|lia].
  apply cc_written_gt in Hw. lia.
Qed.

(** A row at or below the watermark read by the cycle is not touched. *)
Lemma cc_frozen i : i ≤ W → pcs' !! i = pcs !! i.
Proof.
  intros Hi. rewrite (cc_lookup _ _ _ _ _ _ _ _ Hcc).
  destruct (decide _) as [Hin|]; [|done].
  apply cc_marked_selected in Hin as [_ (pc & _ & _ & Hlt & _)]. simpl in Hlt. lia.
Qed.

Lemma cc_lookup_change i :
  lookup_change db' i =
  if decide (i ∈ marked_ids rep) then mark_processed <$> lookup_change db i
  else lookup_change db i.
Proof.
  unfold lookup_change. rewrite cc_changes', (cc_changes _ _ _ _ _ _ _ _ Hcc). simpl.
  apply (cc_lookup _ _ _ _ _ _ _ _ Hcc).
Qed.
End committed.
(** ** AUTOINCREMENT gives a fresh rowid *)

Lemma foldr_max_ge (l : list Z) (i : Z) : i ∈ l → i ≤ foldr Z.max 0 l.
Proof.
  induction l as [|x l IH]; simpl.
  - by intros ?%not_elem_of_nil.
  - intros [->|Hi]%elem_of_cons; [lia|]. specialize (IH Hi). lia.
Qed.

Lemma max_rowid_ge {A} (m : gmap Z A) (i : Z) : is_Some (m !! i) → i ≤ max_rowid m.
Proof.
  intros [x Hx]. apply foldr_max_ge.
  apply elem_of_map_to_list in Hx. by apply (list_elem_of_fmap_2' fst _ (i, x)).
Qed.

Lemma next_rowid_fresh {A} (m : gmap Z A) (k : Z) : next_rowid m = Some k → m !! k = None.
Proof.
  unfold next_rowid. case_bool_decide; [|done]. intros [= <-].
  destruct (m !! (max_rowid m + 1)) eqn:Hk; [|done].
  assert (max_rowid m + 1 ≤ max_rowid m) by (apply max_rowid_ge; eauto). lia.
Qed.

Lemma next_rowid_gt {A} (m : gmap Z A) (k i : Z) :
  next_rowid m = Some k → is_Some (m !! i) → i < k.
Proof.
  unfold next_rowid. case_bool_decide; [|done]. intros [= <-] Hi.
  apply max_rowid_ge in Hi. lia.
Qed.

(** ** initDB *)

Lemma initDB_orders f db os :
  orders db = Some os → orders (initDB f db).1 = Some os.
Proof.
  intros H. unfold initDB.
  repeat (case_match; simpl; try done); by rewrite H.
Qed.

Lemma initDB_priority_changes f db pcs :
  priority_changes db = Some pcs → priority_changes (initDB f db).1 = Some pcs.
Proof.
  intros H. unfold initDB.
  repeat (case_match; simpl; try done); by rewrite H.
Qed.

Lemma initDB_polling_state f db w :
  polling_state db = Some (Some w) → polling_state (initDB f db).1 = Some (Some w).
Proof.
  intros H. unfold initDB. simpl. rewrite H. simpl.
  repeat (case_match; simpl; try done).
Qed.

(** ** The handlers *)

Lemma handle_orders_keeps f req db :
  priority_changes (handle_orders f req db).1 = priority_changes db ∧
  polling_state (handle_orders f req db).1 = polling_state db.
Proof.
  unfold handle_orders. repeat (case_match; simpl; try done).
Qed.

Lemma handle_priority_cases fk f req db :
  ((handle_priority fk f req db).2 ≠ StatusOK ∧ (handle_priority fk f req db).1 = db) ∨
  (∃ os pcs k,
     orders db = Some os ∧ priority_changes db = Some pcs ∧
     next_rowid pcs = Some k ∧
     handle_priority fk f req db = (escalated req os pcs k db, StatusOK)).
Proof.
  unfold handle_priority.
  case_bool_decide; [by left|].
  destruct (pr_parse_fails req); [by left|].
  destruct (fail_tx_begin f); [by left|].
  destruct (fail_prepare_update f); [by left|].
  destruct (orders db) as [os|] eqn:Hos; [|by left].
  destruct (fail_exec_update f); [by left|].
  destruct (fail_prepare_insert f); [by left|].
  destruct (priority_changes db) as [pcs|] eqn:Hpcs; [|by left].
  destruct (fail_exec_insert f); [by left|].
  unfold insert_change.
  destruct (fk && _); [by left|].
  destruct (next_rowid pcs) as [k|] eqn:Hk; simpl; [|by left].
  destruct (fail_tx_commit f); [by left|].
  right. by exists os, pcs, k.
Qed.

Lemma handle_priority_lookup_change fk f req db i pc :
  lookup_change db i = Some pc →
  lookup_change (handle_priority fk f req db).1 i = Some pc.
Proof.
  intros Hi.
  destruct (handle_priority_cases fk f req db)
    as [[_ ->]|(os & pcs & k & Hos & Hpcs & Hk & ->)]; [done|].
  unfold lookup_change in *. rewrite Hpcs in Hi. simpl in *.
  rewrite lookup_insert_ne; [done|].
  intros ->. apply next_rowid_fresh in Hk. congruence.
Qed.

Lemma handle_priority_polling_state fk f req db :
  polling_state (handle_priority fk f req db).1 = polling_state db.
Proof.
  by destruct (handle_priority_cases fk f req db)
    as [[_ ->]|(os & pcs & k & Hos & Hpcs & Hk & ->)].
Qed.

(** ** Steps of the system *)

Lemma step_watermark_mono fk db o W :
  watermark db = Some W →
  ∃ W', watermark (step fk db o) = Some W' ∧ W ≤ W'.
Proof.
  intros HW. destruct o as [f|f req|f req|f]; simpl.
  - exists W. split; [|lia]. apply watermark_Some, initDB_polling_state.
    by apply watermark_Some.
  - exists W. split; [|lia]. unfold watermark.
    by rewrite (proj2 (handle_orders_keeps f req db)).
  - exists W. split; [|lia]. unfold watermark.
    by rewrite handle_priority_polling_state.
  - destruct (cycle_effect_cases f db) as [->|(os & pcs & pcs' & W0 & Hce)].
    + exists W. split; [done|lia].
    + rewrite (ce_watermark _ _ _ _ _ _ _ _ Hce) in HW. injection HW as ->.
      eexists. split; [apply (ce_watermark' Hce)|].
      eapply (ce_watermark_mono Hce), (ce_watermark' Hce).
Qed.

(** What a step does to an event of the store: nothing, or the one
    transition from pending to processed, made by a poller cycle that
    selected it. *)
Lemma step_lookup_change fk db o i pc :
  lookup_change db i = Some pc →
  lookup_change (step fk db o) i = Some pc ∨
  (lookup_change (step fk db o) i = Some (mark_processed pc) ∧
   processed pc = false ∧ matches_filter db pc = true ∧
   ∃ f W, o = Poll f ∧ i ∈ marked_ids (poll_cycle f db).2 ∧
          watermark db = Some W ∧ W < i).
Proof.
  intros Hi. destruct o as [f|f req|f req|f]; simpl.
  - left. unfold lookup_change in *.
    destruct (priority_changes db) as [pcs|] eqn:Hpcs; [|done].
    by rewrite (initDB_priority_changes f db pcs).
  - left. unfold lookup_change.
    by rewrite (proj1 (handle_orders_keeps f req db)).
  - left. by apply handle_priority_lookup_change.
  - destruct (cycle_effect_cases f db) as [->|(os & pcs & pcs' & W & Hce)];
      [by left|].
    destruct (ce_lookup_change Hce i) as [->|[Hin ->]]; [by left|].
    rewrite Hi. simpl. right. split; [done|].
    pose proof Hin as Hsel.
    apply (ce_marked_selected Hce) in Hsel as [_ (pc' & Hpc' & Hm & Hlt & Hp)].
    unfold lookup_change in Hi. rewrite (ce_changes _ _ _ _ _ _ _ _ Hce) in Hi.
    simpl in *. assert (pc' = pc) as -> by congruence.
    split; [done|]. split.
    { unfold matches_filter. by rewrite (ce_orders _ _ _ _ _ _ _ _ Hce). }
    exists f, W. split_and!; [done|done|apply (ce_watermark _ _ _ _ _ _ _ _ Hce)|done].
Qed.

(** An event at or below the watermark is never touched again. *)
Lemma run_frozen fk ops db i pc W :
  lookup_change db i = Some pc → watermark db = Some W → i ≤ W →
  lookup_change (run fk db ops) i = Some pc.
Proof.
  revert db W. induction ops as [|o ops IH]; intros db W Hi HW Hle; [done|].
  simpl. destruct (step_watermark_mono fk db o W HW) as (W' & HW' & Hmono).
  apply (IH _ W'); [|done|lia].
  destruct (step_lookup_change fk db o i pc Hi)
    as [?|(_ & _ & _ & f & W0 & _ & _ & HW0 & Hlt)]; [done|].
  rewrite HW in HW0. injection HW0 as <-. lia.
Qed.



Lemma pollForPriorityChanges_run fk fs db :
  (pollForPriorityChanges fs db).1 = run fk db (Poll <$> fs).
Proof.
  revert db. induction fs as [|f fs IH]; intros db; [done|].
  change (run fk db (Poll <$> f :: fs)) with (run fk (poll_cycle f db).1 (Poll <$> fs)).
  rewrite <-IH. simpl. destruct (poll_cycle f db) as [db1 r]. simpl.
  by destruct (pollForPriorityChanges fs db1).
Qed.

(** ** Startup *)

Lemma initDB_twice db :
  initDB no_init_faults (initDB no_init_faults db).1 =
  ((initDB no_init_faults db).1, false).
Proof. by destruct db as [[os|] [pcs|] [[w|]|]]. Qed.

Lemma initDB_seeds_only_when_absent db :
  polling_state db = Some None ∨ polling_state db = None →
  watermark (initDB no_init_faults db).1 = Some 0.
Proof. by destruct db as [os pcs [[w|]|]]; intros [?|?]. Qed.

(** C10: on a store that already has the three tables and the watermark
    row, [initDB] changes nothing, whichever of its statements fail: the
    orders, the events and the watermark are the ones of before, and without
    a fault it returns no error. A restart does not put the watermark back
    to 0. *)
Theorem C10_initDB_keeps_existing_store f db os pcs w :
  orders db = Some os →
  priority_changes db = Some pcs →
  polling_state db = Some (Some w) →
  (initDB f db).1 = db ∧
  initDB no_init_faults db = (db, false) ∧
  watermark (step dsn_foreign_keys db (Startup f)) = Some w.
Proof.
  destruct db as [os0 pcs0 ps0]. simpl. intros -> -> ->.
  by destruct f as [[] [] [] []].
Qed.

Lemma C10_witness :
  let db := run dsn_foreign_keys fresh_store [post ninja_order; escalate 1; poll_ok] in
  watermark db = Some 1 ∧
  (initDB (InitFaults false false true false) db).1 = db ∧
  initDB no_init_faults db = (db, false) ∧
  watermark (step dsn_foreign_keys db (Startup (InitFaults false false true false))) = Some 1.
Proof.
  split; [reflexivity|].
  eapply C10_initDB_keeps_existing_store; reflexivity.
Defined.

(** ** Escalation *)

Lemma update_priority_lookup id os j :
  update_priority id os !! j =
  if decide (id = VInt j) then set_high <$> os !! j else os !! j.
Proof.
  destruct id as [k|s]; simpl.
  - rewrite lookup_alter.
    destruct (decide (k = j)) as [->|Hne];
      destruct (decide (VInt _ = VInt j)) as [Heq|Hneq];
      first [done | congruence].
  - done.
Qed.

Lemma order_exists_update_priority id os :
  order_exists id (update_priority id os) = order_exists id os.
Proof.
  destruct id as [k|s]; simpl; [|done].
  rewrite lookup_alter, decide_True by done.
  by destruct (os !! k).
Qed.

(** With [PRAGMA foreign_keys] on, the escalation of an order that is not
    in the store fails and commits nothing. *)
Lemma handle_priority_foreign_keys_on f req db os :
  orders db = Some os →
  order_exists (pr_id req) os = false →
  (handle_priority true f req db).2 ≠ StatusOK ∧
  (handle_priority true f req db).1 = db.
Proof.
  intros Hos Hno. unfold handle_priority, insert_change. rewrite Hos.
  case_bool_decide; [done|].
  destruct (pr_parse_fails req); [done|].
  destruct (fail_tx_begin f); [done|].
  destruct (fail_prepare_update f); [done|].
  destruct (fail_exec_update f); [done|].
  destruct (fail_prepare_insert f); [done|].
  destruct (priority_changes db) as [pcs|]; [|done].
  destruct (fail_exec_insert f); [done|].
  by rewrite order_exists_update_priority, Hno.
Qed.

(** C6: setting the priority and appending the event are not one unit when
    the id names no order.  In the store [one_normal_order], whose one
    order has id 1 and priority normal, an escalation that names order 2
    is answered 200: the event row for order 2 is committed, and the order
    table is as it was, its one order with priority normal: no order has
    been set to high. *)
Theorem C6_event_committed_without_order_write :
  lookup_order one_normal_order 2 = None ∧
  (handle_priority dsn_foreign_keys no_priority_faults
     (PriorityRequest PATCH false (VInt 2)) one_normal_order).2 = StatusOK ∧
  lookup_change one_normal_order 1 = None ∧
  lookup_change
    (handle_priority dsn_foreign_keys no_priority_faults
       (PriorityRequest PATCH false (VInt 2)) one_normal_order).1 1
    = Some (PriorityChange (VInt 2) "high" false) ∧
  orders
    (handle_priority dsn_foreign_keys no_priority_faults
       (PriorityRequest PATCH false (VInt 2)) one_normal_order).1
    = orders one_normal_order ∧
  orders
    (handle_priority dsn_foreign_keys no_priority_faults
       (PriorityRequest PATCH false (VInt 2)) one_normal_order).1
    = Some {[1 := OrderRow "alice" "ninja" (VInt 1) "1 Main St" "normal"]}.
Proof.
  split_and!; by vm_compute.
Qed.

(** C7: the escalation of an order id that is not in the store.  On the
    freshly initialised store, which has no order, a PATCH naming order 7 is
    answered 200 and commits an event row for order 7; the order table still
    has no order 7. *)
Theorem C7_missing_order_is_escalated :
  lookup_order fresh_store 7 = None ∧
  (handle_priority dsn_foreign_keys no_priority_faults
     (PriorityRequest PATCH false (VInt 7)) fresh_store).2 = StatusOK ∧
  lookup_change
    (handle_priority dsn_foreign_keys no_priority_faults
       (PriorityRequest PATCH false (VInt 7)) fresh_store).1 1
    = Some (PriorityChange (VInt 7) high false) ∧
  lookup_order
    (handle_priority dsn_foreign_keys no_priority_faults
       (PriorityRequest PATCH false (VInt 7)) fresh_store).1 7 = None.
Proof. by vm_compute. Qed.

(** ** Scenario A *)

Lemma select_changes_singleton os e pc lastID :
  selectable os lastID (e, pc) →
  select_changes os {[e := pc]} lastID = [(e, pc)].
Proof.
  intros Hsel. unfold select_changes.
  by rewrite map_filter_singleton_True, map_to_list_singleton.
Qed.

(** The store of scenario A: one order [o] under id [k], one pending event
    under id [e] made by its escalation, watermark 0. *)
Lemma scenario_A_store (o : order_row) :
  run dsn_foreign_keys fresh_store [post o; escalate 1] =
  MkDB (Some {[1 := set_high o]})
       (Some {[1 := PriorityChange (VInt 1) high false]})
       (Some (Some 0)).
Proof. by vm_compute. Qed.

(** C8: in any store that holds one order with product ninja and priority
    high, the one event E1 of its escalation (a positive id, processed =
    false) and watermark 0, a poller cycle without faults commits, marks E1
    and writes its id as the watermark: afterwards E1 is processed, the
    watermark is E1's id and the order is as before, with priority high.
    Posting an order with product ninja to a freshly initialised store and
    escalating it gives such a store. *)
Theorem C8_scenario_A (k e : Z) (o o1 : order_row) :
  product_name o = ninja → priority o = high → 0 < e →
  product_name o1 = ninja →
  ((poll_cycle no_poll_faults
      (MkDB (Some {[k := o]}) (Some {[e := PriorityChange (VInt k) high false]})
            (Some (Some 0)))).2
     = CycleReport Committed [e] (Some e) ∧
   lookup_change
     (poll_cycle no_poll_faults
        (MkDB (Some {[k := o]}) (Some {[e := PriorityChange (VInt k) high false]})
              (Some (Some 0)))).1 e
     = Some (PriorityChange (VInt k) high true) ∧
   watermark
     (poll_cycle no_poll_faults
        (MkDB (Some {[k := o]}) (Some {[e := PriorityChange (VInt k) high false]})
              (Some (Some 0)))).1
     = Some e ∧
   lookup_order
     (poll_cycle no_poll_faults
        (MkDB (Some {[k := o]}) (Some {[e := PriorityChange (VInt k) high false]})
              (Some (Some 0)))).1 k
     = Some o) ∧
  (run dsn_foreign_keys fresh_store [post o1; escalate 1] =
     MkDB (Some {[1 := set_high o1]})
          (Some {[1 := PriorityChange (VInt 1) high false]})
          (Some (Some 0)) ∧
   product_name (set_high o1) = ninja ∧ priority (set_high o1) = high).
Proof.
  intros Hninja Hhigh He Hninja1. split; [|by rewrite scenario_A_store].
  unfold poll_cycle. simpl.
  rewrite select_changes_singleton.
  2:{ repeat split; simpl; [|lia].
      unfold references_ninja. simpl. rewrite lookup_singleton_eq.
      by apply bool_decide_eq_true. }
  unfold process_rows, delivered. simpl.
  rewrite bool_decide_eq_true_2 by lia. simpl.
  unfold lookup_change, lookup_order, watermark. simpl.
  rewrite alter_singleton_eq, !lookup_singleton_eq. done.
Qed.

Lemma C8_witness :
  lookup_change
    (run dsn_foreign_keys fresh_store [post ninja_order; escalate 1; poll_ok]) 1
    = Some (PriorityChange (VInt 1) high true) ∧
  watermark
    (run dsn_foreign_keys fresh_store [post ninja_order; escalate 1; poll_ok])
    = Some 1.
Proof.
  pose proof (C8_scenario_A 1 1 (set_high ninja_order) ninja_order
                eq_refl eq_refl ltac:(lia) eq_refl) as [(_ & H1 & H2 & _) _].
  exact (conj H1 H2).
Defined.

(** ** The life of an event *)

Lemma mark_processed_done pc : processed pc = true → mark_processed pc = pc.
Proof. destruct pc as [oid p b]. simpl. by intros ->. Qed.

(** C9: an event of the store is never deleted, and over any operations of
    the system (startup, the two handlers, poller cycles, with any faults)
    it is either as it was or has made the one transition from pending to
    processed; an event with processed = true stays exactly as it is. *)
Theorem C9_processed_is_terminal fk ops db i pc :
  lookup_change db i = Some pc →
  (processed pc = true → lookup_change (run fk db ops) i = Some pc) ∧
  (lookup_change (run fk db ops) i = Some pc ∨
   (processed pc = false ∧
    lookup_change (run fk db ops) i = Some (mark_processed pc))).
Proof.
  revert db pc. induction ops as [|o ops IH]; intros db pc Hi.
  { split; [done|by left]. }
  simpl.
  destruct (step_lookup_change fk db o i pc Hi) as [Hsame|(Hmark & Hp & _)].
  - exact (IH _ _ Hsame).
  - destruct (IH _ _ Hmark) as [Hterm _]. specialize (Hterm eq_refl).
    split; [congruence|]. right. done.
Qed.

Lemma C9_witness :
  lookup_change
    (run dsn_foreign_keys
       (run dsn_foreign_keys fresh_store [post ninja_order; escalate 1; poll_ok])
       [escalate 1; Startup no_init_faults; poll_ok; post widget_order]) 1
  = Some (PriorityChange (VInt 1) high true).
Proof.
  refine (proj1 (C9_processed_is_terminal dsn_foreign_keys _ _ 1 _ _) _);
    reflexivity.
Defined.

(** ** The watermark *)





(** ** Failing cycles *)

Lemma poll_cycle_fault_status f db :
  fail_begin f = true ∨ fail_read_watermark f = true ∨
  fail_query f = true ∨ fail_commit f = true →
  status (poll_cycle f db).2 ≠ Committed.
Proof.
  unfold poll_cycle. intros Hf.
  destruct (fail_begin f); [done|].
  destruct (fail_read_watermark f); [done|].
  destruct (mjoin (polling_state db)); [|done].
  destruct (fail_query f); [done|].
  destruct (_ ≫= _) as [[os pcs]|]; [|done].
  destruct (fail_commit f); [by destruct (tx_active _)|].
  by destruct Hf as [?|[?|[?|?]]].
Qed.

(** Whatever the end of the cycle, a row it marked was returned by its
    query and had no row fault. *)
Lemma poll_cycle_marked_selected f db i :
  i ∈ marked_ids (poll_cycle f db).2 →
  row_ok f i ∧
  ∃ os pcs W pc,
    orders db = Some os ∧ priority_changes db = Some pcs ∧
    watermark db = Some W ∧ pcs !! i = Some pc ∧ selectable os W (i, pc).
Proof.
  unfold watermark, poll_cycle.
  destruct (fail_begin f); [by intros ?%not_elem_of_nil|].
  destruct (fail_read_watermark f); [by intros ?%not_elem_of_nil|].
  destruct (mjoin (polling_state db)) as [W|]; [|by intros ?%not_elem_of_nil].
  destruct (fail_query f); [by intros ?%not_elem_of_nil|].
  destruct (orders db) as [os|]; [|by intros ?%not_elem_of_nil].
  destruct (priority_changes db) as [pcs|]; [|by intros ?%not_elem_of_nil].
  simpl. intros Hin.
  assert (Hm : i ∈ marked (process_rows f pcs (select_changes os pcs W)))
    by (destruct (fail_commit f); [destruct (tx_active _)|]; done).
  rewrite process_rows_marked in Hm.
  apply elem_of_ok_ids in Hm as [Hok [pc Hpc]]. split; [done|].
  apply elem_of_select_changes in Hpc as [Hpc Hsel].
  by exists os, pcs, W, pc.
Qed.

(** After a failed read of the watermark or a failed query the cycle ends
    with its transaction still open. *)
Lemma poll_cycle_tx_left_open f db :
  fail_begin f = false →
  fail_read_watermark f = true ∨
  (fail_read_watermark f = false ∧ is_Some (watermark db) ∧ fail_query f = true) →
  tx_left_open (status (poll_cycle f db).2) = true.
Proof.
  unfold watermark, poll_cycle. intros -> [->|(-> & [W ->] & ->)]; done.
Qed.

Lemma poll_cycle_row_fault f db i :
  fail_scan f i = true ∨ fail_mark f i = true →
  i ∉ marked_ids (poll_cycle f db).2.
Proof.
  intros Hf [[Hs Hm] _]%poll_cycle_marked_selected. destruct Hf; congruence.
Qed.

(** A failed UPDATE of the watermark leaves the watermark as it was. *)
Lemma poll_cycle_set_watermark_fault f db :
  fail_set_watermark f = true →
  watermark (poll_cycle f db).1 = watermark db.
Proof.
  intros Hf.
  destruct (cycle_effect_cases f db) as [->|(os & pcs & pcs' & W & Hce)]; [done|].
  rewrite (ce_watermark' Hce), (ce_written _ _ _ _ _ _ _ _ Hce), Hf, andb_false_r.
  by rewrite (ce_watermark _ _ _ _ _ _ _ _ Hce).
Qed.

Lemma poll_cycle_unmarked f db i :
  i ∉ marked_ids (poll_cycle f db).2 →
  lookup_change (poll_cycle f db).1 i = lookup_change db i.
Proof.
  intros Hnot.
  destruct (cycle_effect_cases f db) as [->|(os & pcs & pcs' & W & Hce)]; [done|].
  by destruct (ce_lookup_change Hce i) as [?|[? _]].
Qed.

Lemma poll_cycle_status_Committed f db os pcs W :
  orders db = Some os → priority_changes db = Some pcs → watermark db = Some W →
  fail_begin f = false → fail_read_watermark f = false →
  fail_query f = false → fail_commit f = false →
  status (poll_cycle f db).2 = Committed.
Proof.
  unfold watermark, poll_cycle. by intros -> -> -> -> -> -> ->.
Qed.

Lemma elem_of_ok_ids_2 f rows j pc :
  (j, pc) ∈ rows → row_ok f j → j ∈ ok_ids f rows.
Proof.
  intros Hin Hok. unfold ok_ids. apply list_elem_of_filter. split; [done|].
  by apply (list_elem_of_fmap_2' fst _ (j, pc)).
Qed.

(** A committed cycle has set the flag of every row that [rows.Next]
    delivered and whose scan and UPDATE did not fail, whatever happened to
    the other rows. *)
Lemma poll_cycle_marks_delivered f db os pcs W j pc :
  orders db = Some os → priority_changes db = Some pcs → watermark db = Some W →
  status (poll_cycle f db).2 = Committed →
  (j, pc) ∈ delivered f (select_changes os pcs W) → row_ok f j →
  j ∈ marked_ids (poll_cycle f db).2 ∧
  lookup_change (poll_cycle f db).1 j = Some (mark_processed pc).
Proof.
  intros Hos Hpcs HW Hs Hin Hok.
  destruct (poll_cycle_Committed f db Hs) as (os' & pcs0 & pcs' & W' & Hcc).
  pose proof (cc_orders _ _ _ _ _ _ _ _ Hcc) as Hos'.
  pose proof (cc_changes _ _ _ _ _ _ _ _ Hcc) as Hpcs'.
  pose proof (cc_watermark _ _ _ _ _ _ _ _ Hcc) as HW'.
  assert (os' = os) as -> by congruence.
  assert (pcs0 = pcs) as -> by congruence.
  assert (W' = W) as -> by congruence.
  assert (Hm : j ∈ marked_ids (poll_cycle f db).2).
  { rewrite (cc_marked _ _ _ _ _ _ _ _ Hcc). by eapply elem_of_ok_ids_2. }
  split; [done|].
  rewrite (cc_lookup_change Hcc), decide_True by done.
  assert ((j, pc) ∈ select_changes os pcs W) as [Hpc _]%elem_of_select_changes.
  { by eapply sublist_subseteq; [apply delivered_sublist|]. }
  unfold lookup_change. rewrite Hpcs. simpl. by rewrite Hpc.
Qed.

Lemma pollForPriorityChanges_length fs db :
  length (pollForPriorityChanges fs db).2 = length fs.
Proof.
  revert db. induction fs as [|f fs IH]; intros db; simpl; [done|].
  destruct (poll_cycle f db) as [db1 r]. specialize (IH db1).
  destruct (pollForPriorityChanges fs db1) as [db2 rs]. simpl in *. by rewrite IH.
Qed.

Lemma pollForPriorityChanges_cons f fs db :
  (pollForPriorityChanges (f :: fs) db).1 =
  (pollForPriorityChanges fs (poll_cycle f db).1).1.
Proof.
  simpl. destruct (poll_cycle f db) as [db1 r]. simpl.
  by destruct (pollForPriorityChanges fs db1).
Qed.

(** C2, as the code has it.  (1) When the begin of the transaction, the
    read of the watermark or the query fails, the cycle is not committed
    and the store after it is the store before it.  (2) The same holds when
    the commit fails and the transaction is still in place, no failing call
    before having made SQLite roll it back; this is also the end of a cycle
    whose UPDATE of the watermark fails and takes the transaction with it.
    (3) A failing UPDATE of the watermark never changes the watermark.
    (4) A failing scan or a failing UPDATE of a row only skips that row,
    whose event is left as it was: (5) the cycle goes on, and when no call
    of the cycle but row scans and row UPDATEs fails it is committed with
    the flag set for every delivered row that did not fail.  (6) Whatever
    failed, the loop goes on with the next cycle from the store the cycle
    left. *)
Theorem C2_failing_steps_of_a_cycle (f : poll_faults) (fs : list poll_faults) (db : DB) :
  (fail_begin f = true ∨ fail_read_watermark f = true ∨ fail_query f = true →
   status (poll_cycle f db).2 ≠ Committed ∧ (poll_cycle f db).1 = db) ∧
  (fail_commit f = true → never_cancels f →
   status (poll_cycle f db).2 ≠ Committed ∧ (poll_cycle f db).1 = db) ∧
  (fail_set_watermark f = true →
   watermark (poll_cycle f db).1 = watermark db) ∧
  (∀ i, fail_scan f i = true ∨ fail_mark f i = true →
        (i ∉ marked_ids (poll_cycle f db).2) ∧
        lookup_change (poll_cycle f db).1 i = lookup_change db i) ∧
  (∀ os pcs W j pc,
     orders db = Some os → priority_changes db = Some pcs → watermark db = Some W →
     fail_begin f = false → fail_read_watermark f = false →
     fail_query f = false → fail_commit f = false →
     (j, pc) ∈ delivered f (select_changes os pcs W) →
     fail_scan f j = false → fail_mark f j = false →
     status (poll_cycle f db).2 = Committed ∧
     ∃ pc', lookup_change (poll_cycle f db).1 j = Some pc' ∧ processed pc' = true) ∧
  (pollForPriorityChanges (f :: fs) db).1 =
    (pollForPriorityChanges fs (poll_cycle f db).1).1 ∧
  length (pollForPriorityChanges (f :: fs) db).2 = S (length fs).
Proof.
  split_and!.
  - intros Hf. split.
    + apply poll_cycle_fault_status. destruct Hf as [?|[?|?]]; auto.
    + apply poll_cycle_early_failure. revert Hf. unfold poll_cycle.
      destruct (fail_begin f); [by left|].
      destruct (fail_read_watermark f); [by right; left|].
      destruct (mjoin (polling_state db)); [|by right; left].
      destruct (fail_query f); [by right; right|]. by intros [?|[?|?]].
  - intros Hc [Hn Hm].
    assert (Hs : status (poll_cycle f db).2 ≠ Committed)
      by (apply poll_cycle_fault_status; auto).
    split; [done|]. apply poll_cycle_not_Committed; [|by rewrite Hn, andb_false_r|done].
    intros i. by rewrite Hm, andb_false_r.
  - apply poll_cycle_set_watermark_fault.
  - intros i Hf. apply (poll_cycle_row_fault f db) in Hf.
    split; [done|]. by apply poll_cycle_unmarked.
  - intros os pcs W j pc Hos Hpcs HW Hb Hr Hq Hc Hin Hs Hm.
    assert (Hst : status (poll_cycle f db).2 = Committed)
      by by eapply poll_cycle_status_Committed.
    split; [done|].
    destruct (poll_cycle_marks_delivered f db os pcs W j pc) as [_ Hj]; [done..|].
    by exists (mark_processed pc).
  - apply pollForPriorityChanges_cons.
  - apply pollForPriorityChanges_length.
Qed.

(** In [two_pending]: a cycle whose commit fails leaves the store as it
    was; a cycle in which the scan of row 1 fails is committed and has
    processed row 2. *)
Lemma C2_witness :
  (poll_cycle commit_fails two_pending).1 = two_pending ∧
  lookup_change (poll_cycle (scan_fails_on 1) two_pending).1 1
    = lookup_change two_pending 1 ∧
  status (poll_cycle (scan_fails_on 1) two_pending).2 = Committed ∧
  ∃ pc', lookup_change (poll_cycle (scan_fails_on 1) two_pending).1 2 = Some pc' ∧
         processed pc' = true.
Proof.
  destruct (C2_failing_steps_of_a_cycle commit_fails [] two_pending)
    as (_ & Hcommit & _).
  destruct (C2_failing_steps_of_a_cycle (scan_fails_on 1) [] two_pending)
    as (_ & _ & _ & Hskip & Hgo & _).
  split; [|split].
  - apply Hcommit; [reflexivity|]. split; [reflexivity|]. intros i. reflexivity.
  - apply Hskip. left. reflexivity.
  - apply (Hgo (default ∅ (orders two_pending))
             (default ∅ (priority_changes two_pending)) 0 2
             (PriorityChange (VInt 1) high false));
      try reflexivity.
    vm_compute. apply list_elem_of_further, list_elem_of_here.
Defined.

(** The claim C2 as stated fails at two of its steps.  A cycle in which
    the scan of a selected row fails still commits the flag of the next row
    and the watermark; and a cycle whose commit fails after SQLite has
    rolled the transaction back at a failing [rows.Next] leaves the
    watermark changed. *)
Lemma C2_failing_steps_that_do_not_abort :
  ¬ (∀ f db os pcs W i pc,
       orders db = Some os → priority_changes db = Some pcs →
       watermark db = Some W →
       (i, pc) ∈ select_changes os pcs W → fail_scan f i = true →
       (poll_cycle f db).1 = db) ∧
  ¬ (∀ f db, fail_commit f = true → (poll_cycle f db).1 = db).
Proof.
  split.
  - intros H.
    specialize (H (scan_fails_on 1) two_pending _ _ 0 1
                  (PriorityChange (VInt 1) high false) eq_refl eq_refl eq_refl).
    assert (Heq : (poll_cycle (scan_fails_on 1) two_pending).1 = two_pending).
    { apply H; [|reflexivity]. apply elem_of_select_changes. by vm_compute. }
    apply (f_equal watermark) in Heq. vm_compute in Heq. discriminate Heq.
  - intros H. specialize (H (next_cancels_after 2) two_pending eq_refl).
    apply (f_equal watermark) in H. vm_compute in H. discriminate H.
Qed.
(** ** The filter *)

Lemma ok_ids_all f rows :
  (∀ i, row_ok f i) → ok_ids f rows = rows.*1.
Proof.
  intros Hok. induction rows as [|r rows IH]; [done|].
  rewrite ok_ids_cons_ok by done. simpl. by rewrite IH.
Qed.

(** A cycle without faults marks every row of its query and moves the
    watermark to the largest id among them. *)
Lemma poll_cycle_fault_free db os pcs W :
  orders db = Some os → priority_changes db = Some pcs → watermark db = Some W →
  ∃ pcs',
    committed_cycle no_poll_faults db (poll_cycle no_poll_faults db).1
      (poll_cycle no_poll_faults db).2 os pcs pcs' W ∧
    marked_ids (poll_cycle no_poll_faults db).2 = (select_changes os pcs W).*1.
Proof.
  intros Hos Hpcs HW.
  assert (Hs : status (poll_cycle no_poll_faults db).2 = Committed)
    by by eapply poll_cycle_status_Committed.
  destruct (poll_cycle_Committed _ _ Hs) as (os' & pcs0 & pcs' & W' & Hcc).
  pose proof (cc_orders _ _ _ _ _ _ _ _ Hcc) as Hos'.
  pose proof (cc_changes _ _ _ _ _ _ _ _ Hcc) as Hpcs'.
  pose proof (cc_watermark _ _ _ _ _ _ _ _ Hcc) as HW'.
  assert (os' = os) as -> by congruence.
  assert (pcs0 = pcs) as -> by congruence.
  assert (W' = W) as -> by congruence.
  exists pcs'. split; [done|].
  rewrite (cc_marked _ _ _ _ _ _ _ _ Hcc). by apply ok_ids_all.
Qed.

Lemma matches_filter_false_unmarked f db i pc :
  lookup_change db i = Some pc → matches_filter db pc = false →
  i ∉ marked_ids (poll_cycle f db).2.
Proof.
  intros Hi Hno
    [_ (os & pcs & W & pc' & Hos & Hpcs & _ & Hpc' & Hm & _)]%poll_cycle_marked_selected.
  unfold lookup_change, matches_filter in *. rewrite Hpcs in Hi. rewrite Hos in Hno.
  simpl in *. congruence.
Qed.

(** C4: in the store [widget_then_ninja] the watermark is 0, event 1 is
    for the widget order and event 2 for the ninja order, both pending.  In
    a cycle, the query yields row 2 and the UPDATE of its flag is executed;
    then [rows.Next] fails with an error at which SQLite rolls the
    transaction back, the UPDATE of the watermark is executed outside of any
    transaction, and the commit fails.  The watermark is 2 in the store
    after the cycle, no flag is set in it, and event 2, whose order
    satisfies the filter, is at the watermark and not processed; no later
    operation of the system changes it. *)
Theorem C4_watermark_lands_on_unprocessed_event (fk : bool) (ops : list op) :
  watermark widget_then_ninja = Some 0 ∧
  status (poll_cycle (next_cancels_after 1) widget_then_ninja).2 = CommitFailed ∧
  marked_ids (poll_cycle (next_cancels_after 1) widget_then_ninja).2 = [2] ∧
  watermark (poll_cycle (next_cancels_after 1) widget_then_ninja).1 = Some 2 ∧
  priority_changes (poll_cycle (next_cancels_after 1) widget_then_ninja).1
    = priority_changes widget_then_ninja ∧
  lookup_change (poll_cycle (next_cancels_after 1) widget_then_ninja).1 1
    = Some (PriorityChange (VInt 1) high false) ∧
  lookup_change (poll_cycle (next_cancels_after 1) widget_then_ninja).1 2
    = Some (PriorityChange (VInt 2) high false) ∧
  matches_filter (poll_cycle (next_cancels_after 1) widget_then_ninja).1
    (PriorityChange (VInt 2) high false) = true ∧
  lookup_change (run fk (poll_cycle (next_cancels_after 1) widget_then_ninja).1 ops) 2
    = Some (PriorityChange (VInt 2) high false).
Proof.
  assert (HW : watermark (poll_cycle (next_cancels_after 1) widget_then_ninja).1
               = Some 2) by by vm_compute.
  assert (H2 : lookup_change (poll_cycle (next_cancels_after 1) widget_then_ninja).1 2
               = Some (PriorityChange (VInt 2) high false)) by by vm_compute.
  split_and!; [by vm_compute|by vm_compute|by vm_compute|done|by vm_compute|
               by vm_compute|done|by vm_compute|].
  by apply (run_frozen fk ops _ 2 _ 2).
Qed.

(** ** The watermark and the processed flags *)

(** A cycle neither reads nor changes an event at or below the watermark. *)
Lemma poll_cycle_frozen f db i W :
  watermark db = Some W → i ≤ W →
  (i ∉ marked_ids (poll_cycle f db).2) ∧
  lookup_change (poll_cycle f db).1 i = lookup_change db i.
Proof.
  intros HW Hle.
  assert (Hnot : i ∉ marked_ids (poll_cycle f db).2).
  { intros [_ (os & pcs & W0 & pc & _ & _ & HW0 & _ & _ & Hlt & _)]%poll_cycle_marked_selected.
    simpl in Hlt. assert (W0 = W) by congruence. lia. }
  split; [done|]. by apply poll_cycle_unmarked.
Qed.

Lemma sorted_prefix_closed (rows : list (Z * priority_change)) (n : nat) r r' :
  StronglySorted id_le rows → NoDup rows.*1 →
  r ∈ rows → r' ∈ take n rows → r.1 ≤ r'.1 → r ∈ take n rows.
Proof.
  intros Hs Hnd Hr Hr' Hle.
  rewrite <-(take_drop n rows) in Hr, Hs, Hnd.
  apply elem_of_app in Hr as [?|Hr]; [done|]. exfalso.
  pose proof (StronglySorted_app_1_elem_of _ _ _ _ _ Hs Hr' Hr) as Hle'.
  unfold id_le in Hle'. rewrite fmap_app in Hnd.
  apply NoDup_app in Hnd as (_ & Hdisj & _).
  apply (Hdisj r'.1).
  - by apply list_elem_of_fmap_2.
  - replace r'.1 with r.1 by lia. by apply list_elem_of_fmap_2.
Qed.

(** A cycle in which no scan and no UPDATE of a row fails and no failing
    [rows.Next] cancels the transaction is committed, or leaves the store
    as it was. *)
Lemma poll_cycle_rows_ok_cases f db :
  (∀ i, row_ok f i) → next_cancels (cancels f) = false →
  (poll_cycle f db).1 = db ∨
  ∃ os pcs pcs' W,
    committed_cycle f db (poll_cycle f db).1 (poll_cycle f db).2 os pcs pcs' W.
Proof.
  intros Hok Hnc.
  destruct (status (poll_cycle f db).2) eqn:Hs;
    [left; apply poll_cycle_not_Committed; [| |by rewrite Hs]..
    |right; by apply poll_cycle_Committed];
    (by rewrite Hnc, andb_false_r) ||
    (intros i; destruct (Hok i) as [_ ->]; by rewrite andb_false_r).
Qed.

(** Such a cycle keeps the invariant of the watermark, whatever else fails
    in it (the watermark is not negative in any store reached from
    [initDB]). *)
Lemma poll_cycle_keeps_watermark_inv f db :
  (∀ i, row_ok f i) → next_cancels (cancels f) = false →
  (∀ W, watermark db = Some W → 0 ≤ W) →
  watermark_inv db → watermark_inv (poll_cycle f db).1.
Proof.
  intros Hok Hnc Hpos Hinv.
  destruct (poll_cycle_rows_ok_cases f db Hok Hnc)
    as [->|(os & pcs & pcs' & W & Hcc)]; [done|].
  intros W' i pc' HW' Hi' Hle Hm.
  rewrite (cc_lookup_change Hcc) in Hi'.
  destruct (decide (i ∈ _)) as [Hin|Hnot].
  { destruct (lookup_change db i); by simplify_eq/=. }
  destruct (processed pc') eqn:Hp; [done|]. exfalso.
  assert (Hmdb : matches_filter db pc' = true).
  { unfold matches_filter in *.
    by rewrite (cc_orders' Hcc) in Hm; rewrite (cc_orders _ _ _ _ _ _ _ _ Hcc). }
  destruct (decide (i ≤ W)) as [HiW|HiW].
  { pose proof (Hinv W i pc' (cc_watermark _ _ _ _ _ _ _ _ Hcc) Hi' HiW Hmdb).
    congruence. }
  rewrite (cc_watermark' Hcc) in HW'. injection HW' as HW'.
  destruct (watermark_written (poll_cycle f db).2) as [m|] eqn:Hw; simpl in HW';
    [subst m|lia].
  pose proof (cc_written_last Hcc _ Hw) as Hlast.
  pose proof (cc_written_gt Hcc _ Hw) as Hgt.
  pose proof (Hpos W (cc_watermark _ _ _ _ _ _ _ _ Hcc)) as HW0.
  destruct (last (marked_ids (poll_cycle f db).2)) as [m|] eqn:Hl; simpl in Hlast;
    [subst m|lia].
  apply last_Some_elem_of in Hl.
  pose proof (cc_marked _ _ _ _ _ _ _ _ Hcc) as Hmarked.
  rewrite ok_ids_all in Hmarked by done.
  rewrite Hmarked in Hl, Hnot.
  assert (Hsel : (i, pc') ∈ select_changes os pcs W).
  { apply elem_of_select_changes. unfold lookup_change, matches_filter in *.
    rewrite (cc_changes _ _ _ _ _ _ _ _ Hcc) in Hi'.
    rewrite (cc_orders _ _ _ _ _ _ _ _ Hcc) in Hmdb.
    repeat split; simpl; [done..|lia|done]. }
  apply Hnot. unfold delivered in *.
  destruct (rows_cut f) as [n|]; [|by apply (list_elem_of_fmap_2 fst) in Hsel].
  apply list_elem_of_fmap in Hl as (r' & -> & Hr').
  apply (list_elem_of_fmap_2' fst _ (i, pc')); [|done].
  eapply sorted_prefix_closed;
    [apply select_changes_sorted|apply select_changes_NoDup|done..].
Qed.

(** C1: the store [two_pending] has one ninja order and its two pending
    events 1 and 2, watermark 0.  A cycle in which the UPDATE of row 1 fails
    is committed with watermark 2: event 1 is at or below the watermark,
    its order satisfies the filter, and it is not processed; no later
    operation of the system changes it. *)
Theorem C1_watermark_passes_a_skipped_event (fk : bool) (ops : list op) :
  status (poll_cycle (update_fails_on 1) two_pending).2 = Committed ∧
  watermark (poll_cycle (update_fails_on 1) two_pending).1 = Some 2 ∧
  lookup_change (poll_cycle (update_fails_on 1) two_pending).1 1
    = Some (PriorityChange (VInt 1) high false) ∧
  matches_filter (poll_cycle (update_fails_on 1) two_pending).1
    (PriorityChange (VInt 1) high false) = true ∧
  ¬ watermark_inv (poll_cycle (update_fails_on 1) two_pending).1 ∧
  lookup_change (run fk (poll_cycle (update_fails_on 1) two_pending).1 ops) 1
    = Some (PriorityChange (VInt 1) high false).
Proof.
  assert (HW : watermark (poll_cycle (update_fails_on 1) two_pending).1 = Some 2)
    by by vm_compute.
  assert (H1 : lookup_change (poll_cycle (update_fails_on 1) two_pending).1 1
               = Some (PriorityChange (VInt 1) high false)) by by vm_compute.
  assert (Hm : matches_filter (poll_cycle (update_fails_on 1) two_pending).1
                 (PriorityChange (VInt 1) high false) = true) by by vm_compute.
  split_and!; [by vm_compute|done|done|done| |].
  - intros Hinv.
    specialize (Hinv 2 1 (PriorityChange (VInt 1) high false) HW H1 ltac:(lia) Hm).
    discriminate Hinv.
  - by apply (run_frozen fk ops _ 1 _ 2).
Qed.

(** C5: in the store [two_pending], a cycle in which the scan of row 1
    fails skips row 1, which stays unprocessed, and commits the watermark
    2 set by row 2; the next cycle, without faults, selects no row, and
    after any number of cycles without faults event 1 is still not
    processed. *)
Theorem C5_skipped_row_is_not_retried (n : nat) :
  fail_scan (scan_fails_on 1) 1 = true ∧
  marked_ids (poll_cycle (scan_fails_on 1) two_pending).2 = [2] ∧
  lookup_change (poll_cycle (scan_fails_on 1) two_pending).1 1
    = Some (PriorityChange (VInt 1) high false) ∧
  watermark (poll_cycle (scan_fails_on 1) two_pending).1 = Some 2 ∧
  marked_ids (poll_cycle no_poll_faults
                (poll_cycle (scan_fails_on 1) two_pending).1).2 = [] ∧
  lookup_change
    (pollForPriorityChanges (replicate n no_poll_faults)
       (poll_cycle (scan_fails_on 1) two_pending).1).1 1
    = Some (PriorityChange (VInt 1) high false).
Proof.
  assert (HW : watermark (poll_cycle (scan_fails_on 1) two_pending).1 = Some 2)
    by by vm_compute.
  assert (H1 : lookup_change (poll_cycle (scan_fails_on 1) two_pending).1 1
               = Some (PriorityChange (VInt 1) high false)) by by vm_compute.
  split_and!; [by vm_compute|by vm_compute|done|done|by vm_compute|].
  rewrite (pollForPriorityChanges_run dsn_foreign_keys).
  by apply (run_frozen _ _ _ 1 _ 2).
Qed.

(** * Further properties *)

(** ** Startup and the first cycle *)

Lemma initDB_no_error f db :
  (initDB f db).2 = false →
  orders (initDB f db).1 = Some (default ∅ (orders db)) ∧
  priority_changes (initDB f db).1 = Some (default ∅ (priority_changes db)) ∧
  watermark (initDB f db).1 = Some (default 0 (watermark db)).
Proof.
  destruct db as [[os|] [pcs|] [[w|]|]], f as [[] [] [] []]; by intros [=].
Qed.

(** X1: whatever fails in [initDB], an order table, an event table and a
    watermark row that exist are kept as they are; when [initDB] returns no
    error the three tables exist, with their old rows or empty, and the
    watermark row holds its old value or 0; and [initDB] returns an error
    only when one of its four statements fails. *)
Theorem X1_initDB_postcondition (f : init_faults) (db : DB) :
  (∀ os, orders db = Some os → orders (initDB f db).1 = Some os) ∧
  (∀ pcs, priority_changes db = Some pcs →
          priority_changes (initDB f db).1 = Some pcs) ∧
  (∀ w, polling_state db = Some (Some w) →
        polling_state (initDB f db).1 = Some (Some w)) ∧
  ((initDB f db).2 = false →
   orders (initDB f db).1 = Some (default ∅ (orders db)) ∧
   priority_changes (initDB f db).1 = Some (default ∅ (priority_changes db)) ∧
   watermark (initDB f db).1 = Some (default 0 (watermark db))) ∧
  ((initDB f db).2 = true →
   fail_create_orders f = true ∨ fail_create_priority_changes f = true ∨
   fail_create_polling_state f = true ∨ fail_seed_polling_state f = true).
Proof.
  split_and!.
  - intros os. apply initDB_orders.
  - intros pcs. apply initDB_priority_changes.
  - intros w. apply initDB_polling_state.
  - apply initDB_no_error.
  - destruct db as [[os|] [pcs|] [[w|]|]], f as [[] [] [] []]; intros [=]; tauto.
Qed.

Lemma X1_witness :
  orders (initDB no_init_faults no_tables).1 = Some ∅ ∧
  priority_changes (initDB no_init_faults no_tables).1 = Some ∅ ∧
  watermark (initDB no_init_faults no_tables).1 = Some 0.
Proof.
  exact (proj1 (proj2 (proj2 (proj2
           (X1_initDB_postcondition no_init_faults no_tables)))) eq_refl).
Defined.

(** X2: a restart repairs a failed startup.  After an [initDB] that failed
    at any of its statements, an [initDB] without faults returns no error
    and leaves the store that an [initDB] without faults would have made
    of the original one. *)
Theorem X2_initDB_after_failed_initDB (f : init_faults) (db : DB) :
  initDB no_init_faults (initDB f db).1 = initDB no_init_faults db ∧
  (initDB no_init_faults (initDB f db).1).2 = false.
Proof.
  by destruct db as [[os|] [pcs|] [[w|]|]], f as [[] [] [] []].
Qed.

(** X3: a cycle of the poller ends in a successful commit exactly when none
    of begin, watermark read, query and commit fails and the store has the
    watermark row and both tables; so after an [initDB] that returned no
    error, only a failing call keeps a cycle from its commit. *)
Theorem X3_cycle_commits_iff (f : poll_faults) (fi : init_faults) (db : DB) :
  (status (poll_cycle f db).2 = Committed ↔
   fail_begin f = false ∧ fail_read_watermark f = false ∧
   fail_query f = false ∧ fail_commit f = false ∧
   is_Some (watermark db) ∧ is_Some (orders db) ∧ is_Some (priority_changes db)) ∧
  ((initDB fi db).2 = false →
   fail_begin f = false → fail_read_watermark f = false →
   fail_query f = false → fail_commit f = false →
   status (poll_cycle f (initDB fi db).1).2 = Committed).
Proof.
  assert (Hiff : ∀ d,
    status (poll_cycle f d).2 = Committed ↔
    fail_begin f = false ∧ fail_read_watermark f = false ∧
    fail_query f = false ∧ fail_commit f = false ∧
    is_Some (watermark d) ∧ is_Some (orders d) ∧ is_Some (priority_changes d)).
  { intros d. split.
    - intros Hs. destruct (poll_cycle_Committed f d Hs) as (os & pcs & pcs' & W & Hcc).
      destruct (cc_no_cycle_fault _ _ _ _ _ _ _ _ Hcc) as (? & ? & ? & ?).
      rewrite (cc_watermark _ _ _ _ _ _ _ _ Hcc), (cc_orders _ _ _ _ _ _ _ _ Hcc),
        (cc_changes _ _ _ _ _ _ _ _ Hcc). by repeat split.
    - intros (? & ? & ? & ? & [W HW] & [os Hos] & [pcs Hpcs]).
      by eapply poll_cycle_status_Committed. }
  split; [apply Hiff|].
  intros Hok ? ? ? ?. apply Hiff.
  destruct (initDB_no_error fi db Hok) as (-> & -> & ->). by repeat split.
Qed.

Lemma X3_witness :
  status (poll_cycle no_poll_faults (initDB no_init_faults no_tables).1).2 = Committed.
Proof.
  exact (proj2 (X3_cycle_commits_iff no_poll_faults no_init_faults no_tables)
           eq_refl eq_refl eq_refl eq_refl eq_refl).
Defined.

(** ** What a cycle touches *)

Lemma poll_cycle_orders f db : orders (poll_cycle f db).1 = orders db.
Proof.
  destruct (cycle_effect_cases f db) as [->|(os & pcs & pcs' & W & Hce)]; [done|].
  by rewrite (ce_orders' Hce), (ce_orders _ _ _ _ _ _ _ _ Hce).
Qed.

Lemma poll_cycle_lookup_change_cases f db i :
  lookup_change (poll_cycle f db).1 i = lookup_change db i ∨
  (i ∈ marked_ids (poll_cycle f db).2 ∧
   lookup_change (poll_cycle f db).1 i = mark_processed <$> lookup_change db i).
Proof.
  destruct (cycle_effect_cases f db) as [->|(os & pcs & pcs' & W & Hce)];
    [by left|].
  apply (ce_lookup_change Hce).
Qed.

(** X4: a cycle of the poller, whatever its faults, leaves the order table
    as it is, neither adds nor removes an event, and changes nothing of an
    event but its processed flag, which it never clears. *)
Theorem X4_cycle_touches_flags_only (f : poll_faults) (db : DB) :
  orders (poll_cycle f db).1 = orders db ∧
  (∀ i, lookup_change (poll_cycle f db).1 i = None ↔ lookup_change db i = None) ∧
  (∀ i pc', lookup_change (poll_cycle f db).1 i = Some pc' →
     ∃ pc, lookup_change db i = Some pc ∧
           order_id pc' = order_id pc ∧ pc_priority pc' = pc_priority pc ∧
           (processed pc = true → processed pc' = true)).
Proof.
  split_and!.
  - apply poll_cycle_orders.
  - intros i. destruct (poll_cycle_lookup_change_cases f db i) as [->|[_ ->]]; [done|].
    by destruct (lookup_change db i).
  - intros i pc'.
    destruct (poll_cycle_lookup_change_cases f db i) as [->|[_ ->]].
    + intros Hi. by exists pc'.
    + destruct (lookup_change db i) as [pc|]; [|done]. simpl. intros [= <-].
      by exists pc.
Qed.

Lemma X4_witness :
  ∃ pc, lookup_change two_pending 2 = Some pc ∧
        order_id (PriorityChange (VInt 1) high true) = order_id pc.
Proof.
  destruct (proj2 (proj2 (X4_cycle_touches_flags_only no_poll_faults two_pending))
              2 (PriorityChange (VInt 1) high true) eq_refl) as (pc & H1 & H2 & _).
  exists pc. exact (conj H1 H2).
Defined.

(** ** The rows of a cycle *)

Lemma sorted_NoDup_strict (l : list Z) :
  StronglySorted Z.le l → NoDup l → StronglySorted Z.lt l.
Proof.
  induction 1 as [|x l _ IH Hall]; intros Hnd; [constructor|].
  apply NoDup_cons in Hnd as [Hx Hnd]. constructor; [by apply IH|].
  apply Forall_forall. intros y Hy.
  pose proof (proj1 (Forall_forall _ _) Hall y Hy).
  assert (x ≠ y) by (by intros ->). lia.
Qed.

Lemma poll_cycle_marked_ids f db :
  marked_ids (poll_cycle f db).2 = [] ∨
  ∃ os pcs W,
    orders db = Some os ∧ priority_changes db = Some pcs ∧ watermark db = Some W ∧
    marked_ids (poll_cycle f db).2 = ok_ids f (delivered f (select_changes os pcs W)).
Proof.
  unfold watermark, poll_cycle.
  destruct (fail_begin f); [by left|].
  destruct (fail_read_watermark f); [by left|].
  destruct (mjoin (polling_state db)) as [W|]; [|by left].
  destruct (fail_query f); [by left|].
  destruct (orders db) as [os|]; [|by left].
  destruct (priority_changes db) as [pcs|]; [|by left].
  right. exists os, pcs, W. split_and!; try done. simpl.
  destruct (fail_commit f); [destruct (tx_active _)|]; simpl;
    by rewrite process_rows_marked.
Qed.

(** X5: the rows a cycle marks, committed or not: their ids are in
    strictly ascending order, each is above the watermark the cycle read,
    each was a pending event whose order matches the filter, and neither
    its scan nor its UPDATE failed. *)
Theorem X5_marked_rows (f : poll_faults) (db : DB) :
  StronglySorted Z.lt (marked_ids (poll_cycle f db).2) ∧
  ∀ i, i ∈ marked_ids (poll_cycle f db).2 →
       fail_scan f i = false ∧ fail_mark f i = false ∧
       ∃ W pc, watermark db = Some W ∧ W < i ∧
               lookup_change db i = Some pc ∧ processed pc = false ∧
               matches_filter db pc = true.
Proof.
  split.
  - destruct (poll_cycle_marked_ids f db) as [->|(os & pcs & W & _ & _ & _ & ->)];
      [constructor|].
    eapply StronglySorted_sublist; [apply ok_ids_sublist|].
    apply sorted_NoDup_strict;
      [apply select_changes_ids_sorted|apply select_changes_NoDup].
  - intros i [[Hs Hm] (os & pcs & W & pc & Hos & Hpcs & HW & Hpc & Hsel)]%poll_cycle_marked_selected.
    destruct Hsel as (Hmatch & Hlt & Hp). simpl in *.
    split_and!; [done..|]. exists W, pc.
    unfold lookup_change, matches_filter. rewrite Hos, Hpcs. by split_and!.
Qed.

Lemma X5_witness :
  fail_scan (scan_fails_on 1) 2 = false ∧ fail_mark (scan_fails_on 1) 2 = false.
Proof.
  destruct (proj2 (X5_marked_rows (scan_fails_on 1) two_pending) 2) as (H1 & H2 & _).
  - vm_compute. apply list_elem_of_here.
  - exact (conj H1 H2).
Defined.

(** ** Cycles without faults, and cycles after them *)

Lemma run_processed_kept fk ops db i pc :
  lookup_change db i = Some pc → processed pc = true →
  lookup_change (run fk db ops) i = Some pc.
Proof.
  revert db. induction ops as [|o ops IH]; intros db Hi Hp; [done|].
  simpl. apply IH; [|done].
  destruct (step_lookup_change fk db o i pc Hi) as [?|(_ & Hp' & _)]; [done|].
  congruence.
Qed.

(** A cycle without faults leaves no pending matching event above the
    watermark it read. *)
Lemma fault_free_cycle_drains db W i pc :
  watermark db = Some W →
  lookup_change (poll_cycle no_poll_faults db).1 i = Some pc →
  matches_filter (poll_cycle no_poll_faults db).1 pc = true →
  W < i → processed pc = true.
Proof.
  intros HW Hi Hm Hlt.
  destruct (orders db) as [os|] eqn:Hos.
  2:{ unfold matches_filter in Hm. by rewrite poll_cycle_orders, Hos in Hm. }
  destruct (priority_changes db) as [pcs|] eqn:Hpcs.
  2:{ destruct (poll_cycle_lookup_change_cases no_poll_faults db i) as [He|[_ He]];
        rewrite He in Hi; unfold lookup_change in Hi; by rewrite Hpcs in Hi. }
  destruct (poll_cycle_fault_free db os pcs W Hos Hpcs HW) as (pcs' & Hcc & Hmarked).
  rewrite (cc_lookup_change Hcc) in Hi.
  destruct (decide (i ∈ _)) as [Hin|Hnot].
  { destruct (lookup_change db i); by simplify_eq/=. }
  destruct (processed pc) eqn:Hp; [done|]. exfalso. apply Hnot.
  rewrite Hmarked. apply (list_elem_of_fmap_2' fst _ (i, pc)); [|done].
  apply elem_of_select_changes. unfold lookup_change, matches_filter in *.
  rewrite Hpcs in Hi. rewrite (cc_orders' Hcc) in Hm. by repeat split.
Qed.

Lemma fault_free_cycle_processes_all db W :
  watermark db = Some W → watermark_inv db →
  ∀ i pc,
    lookup_change (poll_cycle no_poll_faults db).1 i = Some pc →
    matches_filter (poll_cycle no_poll_faults db).1 pc = true →
    processed pc = true.
Proof.
  intros HW Hinv i pc Hi Hm.
  destruct (decide (i ≤ W)) as [Hle|Hgt].
  - destruct (poll_cycle_frozen no_poll_faults db i W HW Hle) as [_ Heq].
    rewrite Heq in Hi. unfold matches_filter in Hm. rewrite poll_cycle_orders in Hm.
    by apply (Hinv W i pc).
  - apply (fault_free_cycle_drains db W i pc); [done..|lia].
Qed.

(** X6: in a store that has its watermark row and in which every matching
    event at or below the watermark is processed, a cycle without faults
    leaves every event whose order matches the filter processed. *)
Theorem X6_fault_free_cycle_processes_all (db : DB) (W : Z) :
  watermark db = Some W → watermark_inv db →
  ∀ i pc,
    lookup_change (poll_cycle no_poll_faults db).1 i = Some pc →
    matches_filter (poll_cycle no_poll_faults db).1 pc = true →
    processed pc = true.
Proof.
  intros HW Hinv i pc Hi Hm.
  destruct (decide (i ≤ W)) as [Hle|Hgt].
  - destruct (poll_cycle_frozen no_poll_faults db i W HW Hle) as [_ Heq].
    rewrite Heq in Hi. unfold matches_filter in Hm. rewrite poll_cycle_orders in Hm.
    by apply (Hinv W i pc).
  - apply (fault_free_cycle_drains db W i pc); [done..|lia].
Qed.

Lemma X6_witness :
  processed (PriorityChange (VInt 1) high true) = true.
Proof.
  refine (X6_fault_free_cycle_processes_all two_pending 0 eq_refl _
            2 (PriorityChange (VInt 1) high true) eq_refl eq_refl).
  intros W i pc HW Hi Hle Hm. injection HW as <-.
  destruct i as [|i|i]; try (vm_compute in Hi; discriminate Hi).
  exfalso. apply Hle. reflexivity.
Defined.

(** X7: polling again finds nothing.  From a watermark that is not
    negative, the cycle that follows a cycle without faults marks no row
    and leaves the store as it found it, whatever fails in it. *)
Theorem X7_cycle_after_fault_free_cycle (f : poll_faults) (db : DB) (W : Z) :
  watermark db = Some W → 0 ≤ W →
  marked_ids (poll_cycle f (poll_cycle no_poll_faults db).1).2 = [] ∧
  (poll_cycle f (poll_cycle no_poll_faults db).1).1 = (poll_cycle no_poll_faults db).1.
Proof.
  intros HW Hpos.
  set (db1 := (poll_cycle no_poll_faults db).1).
  destruct (step_watermark_mono dsn_foreign_keys db (Poll no_poll_faults) W HW)
    as (W1 & HW1 & Hle). simpl in HW1. fold db1 in HW1.
  assert (Hnil : marked_ids (poll_cycle f db1).2 = []).
  { destruct (marked_ids (poll_cycle f db1).2) as [|i l] eqn:Hm; [done|]. exfalso.
    assert (Hin : i ∈ marked_ids (poll_cycle f db1).2)
      by (rewrite Hm; apply list_elem_of_here).
    apply poll_cycle_marked_selected in Hin
      as [_ (os & pcs & W' & pc & Hos & Hpcs & HW' & Hpc & Hmatch & Hlt & Hp)].
    simpl in *. assert (W' = W1) as -> by congruence.
    assert (processed pc = true); [|congruence].
    apply (fault_free_cycle_drains db W i pc); [done| | |lia].
    - unfold lookup_change. fold db1. by rewrite Hpcs.
    - unfold matches_filter. fold db1. by rewrite Hos. }
  split; [done|].
  destruct (cycle_effect_cases f db1) as [?|(os & pcs & pcs' & W' & Hce)];
    [done|].
  pose proof (ce_watermark _ _ _ _ _ _ _ _ Hce) as HW'.
  assert (W' = W1) as -> by congruence.
  rewrite (ce_store _ _ _ _ _ _ _ _ Hce), (ce_written _ _ _ _ _ _ _ _ Hce), Hnil.
  simpl. rewrite bool_decide_eq_false_2 by lia. simpl.
  assert (pcs' = pcs) as ->.
  { apply map_eq. intros i.
    destruct (ce_lookup _ _ _ _ _ _ _ _ Hce i) as [?|[Hi _]]; [done|].
    rewrite Hnil in Hi. by apply not_elem_of_nil in Hi. }
  pose proof (ce_orders _ _ _ _ _ _ _ _ Hce) as Hos.
  pose proof (ce_changes _ _ _ _ _ _ _ _ Hce) as Hpcs.
  apply watermark_Some in HW1.
  destruct db1 as [o1 p1 w1]. simpl in *. by subst.
Qed.

Lemma X7_witness :
  marked_ids (poll_cycle (scan_fails_on 2) (poll_cycle no_poll_faults two_pending).1).2
    = [] ∧
  (poll_cycle (scan_fails_on 2) (poll_cycle no_poll_faults two_pending).1).1
    = (poll_cycle no_poll_faults two_pending).1.
Proof.
  apply (X7_cycle_after_fault_free_cycle (scan_fails_on 2) two_pending 0);
    [reflexivity|lia].
Defined.

(** X8: an event is marked once.  A row marked by a committed cycle is not
    marked by any later cycle, whatever operations of the system come in
    between and whatever fails in them. *)
Theorem X8_marked_at_most_once (fk : bool) (f f' : poll_faults) (db : DB)
    (ops : list op) (i : Z) :
  status (poll_cycle f db).2 = Committed →
  i ∈ marked_ids (poll_cycle f db).2 →
  i ∉ marked_ids (poll_cycle f' (run fk (poll_cycle f db).1 ops)).2.
Proof.
  intros Hs Hin Hin'.
  destruct (poll_cycle_Committed f db Hs) as (os & pcs & pcs' & W & Hcc).
  destruct (cc_marked_selected Hcc i Hin) as [_ (pc & Hpc & _)].
  assert (H1 : lookup_change (poll_cycle f db).1 i = Some (mark_processed pc)).
  { rewrite (cc_lookup_change Hcc), decide_True by done.
    unfold lookup_change. by rewrite (cc_changes _ _ _ _ _ _ _ _ Hcc); simpl; rewrite Hpc. }
  pose proof (run_processed_kept fk ops _ i _ H1 eq_refl) as H2.
  apply poll_cycle_marked_selected in Hin'
    as [_ (os2 & pcs2 & W2 & pc2 & _ & Hpcs2 & _ & Hpc2 & _ & _ & Hp2)].
  unfold lookup_change in H2. rewrite Hpcs2 in H2. simpl in *.
  rewrite Hpc2 in H2. injection H2 as ->. done.
Qed.

Lemma X8_witness :
  2 ∉ marked_ids
        (poll_cycle no_poll_faults
           (run dsn_foreign_keys (poll_cycle (scan_fails_on 1) two_pending).1
              [escalate 1; poll_ok])).2.
Proof.
  apply (X8_marked_at_most_once dsn_foreign_keys (scan_fails_on 1) no_poll_faults
           two_pending [escalate 1; poll_ok] 2).
  - reflexivity.
  - vm_compute. apply list_elem_of_here.
Defined.

(** ** The handler of /orders *)

Lemma max_rowid_nonneg {A} (m : gmap Z A) : 0 ≤ max_rowid m.
Proof.
  unfold max_rowid. induction ((map_to_list m).*1) as [|x l IH]; simpl; lia.
Qed.

Lemma next_rowid_pos {A} (m : gmap Z A) k : next_rowid m = Some k → 0 < k.
Proof.
  unfold next_rowid. case_bool_decide; [|done]. intros [= <-].
  pose proof (max_rowid_nonneg m). lia.
Qed.

Lemma handle_orders_cases f req db :
  ((handle_orders f req db).1 = db ∧ (handle_orders f req db).2 ≠ StatusSeeOther) ∨
  (∃ os k,
     or_method req = POST ∧ or_parse_fails req = false ∧
     fail_prepare f = false ∧ fail_exec f = false ∧
     orders db = Some os ∧ next_rowid os = Some k ∧
     (handle_orders f req db).1 = set_orders db (<[k := or_form req]> os) ∧
     (handle_orders f req db).2 =
       if fail_last_insert_id f then StatusInternalServerError else StatusSeeOther).
Proof.
  unfold handle_orders.
  case_bool_decide as Hm; [by left|].
  destruct (or_parse_fails req); [by left|].
  destruct (fail_prepare f); [by left|].
  destruct (orders db) as [os|]; [|by left].
  destruct (fail_exec f); [by left|].
  destruct (next_rowid os) as [k|] eqn:Hk; [|by left].
  right. exists os, k. split_and!; try done.
  - by destruct (fail_last_insert_id f).
  - by destruct (fail_last_insert_id f).
Qed.

(** X10: the handler of [/orders] never changes the events, the watermark
    or an order that exists.  When it answers 303 the request was a POST
    and the store has one more order, under an id that is positive and
    larger than the id of every order before: the row of the request, that
    is the four texts of the form as they were sent, and the quantity as
    SQLite reads its text for the INTEGER column. *)
Theorem X10_orders_inserts_one_row (f : orders_faults) (req : orders_request) (db : DB) :
  priority_changes (handle_orders f req db).1 = priority_changes db ∧
  polling_state (handle_orders f req db).1 = polling_state db ∧
  (∀ j o, lookup_order db j = Some o →
          lookup_order (handle_orders f req db).1 j = Some o) ∧
  ((handle_orders f req db).2 = StatusSeeOther →
   or_method req = POST ∧
   ∃ k, 0 < k ∧ (∀ j, is_Some (lookup_order db j) → j < k) ∧
        lookup_order (handle_orders f req db).1 k = Some (or_form req) ∧
        ∀ j, j ≠ k → lookup_order (handle_orders f req db).1 j = lookup_order db j).
Proof.
  destruct (handle_orders_keeps f req db) as [Hpcs Hps].
  split_and!; [done..| |].
  - intros j o Hj.
    destruct (handle_orders_cases f req db)
      as [[-> _]|(os & k & _ & _ & _ & _ & Hos & Hk & -> & _)]; [done|].
    unfold lookup_order in *. rewrite Hos in Hj. simpl in *.
    rewrite lookup_insert_ne; [done|].
    intros ->. apply next_rowid_fresh in Hk. congruence.
  - intros Hs.
    destruct (handle_orders_cases f req db)
      as [[_ ?]|(os & k & Hm & _ & _ & _ & Hos & Hk & Heq & _)]; [done|].
    split; [done|]. exists k. rewrite Heq. unfold lookup_order. rewrite Hos. simpl.
    split_and!.
    + by eapply next_rowid_pos.
    + intros j Hj. by eapply next_rowid_gt.
    + apply lookup_insert_eq.
    + intros j Hne. by rewrite lookup_insert_ne.
Qed.

Lemma X10_witness :
  lookup_order
    (handle_orders no_orders_faults (OrdersRequest POST false widget_order) two_pending).1 1
    = Some (set_high ninja_order) ∧
  or_method (OrdersRequest POST false widget_order) = POST.
Proof.
  destruct (X10_orders_inserts_one_row no_orders_faults
              (OrdersRequest POST false widget_order) two_pending)
    as (_ & _ & Hkeep & Hins).
  split; [apply Hkeep; reflexivity|]. apply Hins. reflexivity.
Defined.

(** X11: the answers of the handler of [/orders] and the store.  A method
    other than POST is answered 405 and a form that does not parse 400,
    both with the store untouched; the store changes only when the INSERT
    was executed, and then the answer is 303, or 500 when [LastInsertId]
    fails: the row is stored although the answer is an error. *)
Theorem X11_orders_answers (f : orders_faults) (req : orders_request) (db : DB) :
  (or_method req ≠ POST →
   handle_orders f req db = (db, StatusMethodNotAllowed)) ∧
  (or_method req = POST → or_parse_fails req = true →
   handle_orders f req db = (db, StatusBadRequest)) ∧
  ((handle_orders f req db).1 ≠ db →
   fail_exec f = false ∧
   (handle_orders f req db).2 =
     if fail_last_insert_id f then StatusInternalServerError else StatusSeeOther) ∧
  (∀ os k, or_method req = POST → or_parse_fails req = false →
     fail_prepare f = false → fail_exec f = false →
     orders db = Some os → next_rowid os = Some k →
     fail_last_insert_id f = true →
     (handle_orders f req db).2 = StatusInternalServerError ∧
     lookup_order db k = None ∧
     lookup_order (handle_orders f req db).1 k = Some (or_form req)).
Proof.
  split_and!.
  - intros Hm. unfold handle_orders. by rewrite bool_decide_eq_true_2.
  - intros Hm Hp. unfold handle_orders.
    rewrite bool_decide_eq_false_2 by (by intros ?). by rewrite Hp.
  - intros Hne.
    destruct (handle_orders_cases f req db)
      as [[? _]|(os & k & _ & _ & _ & He & _ & _ & _ & Hs)]; done.
  - intros os k Hm Hp Hpr He Hos Hk Hl. unfold handle_orders, lookup_order.
    rewrite bool_decide_eq_false_2 by (by intros ?).
    rewrite Hp, Hpr, Hos, He, Hk, Hl. simpl.
    split_and!; [done|by apply next_rowid_fresh|apply lookup_insert_eq].
Qed.

Lemma X11_witness :
  handle_orders no_orders_faults (OrdersRequest GET false widget_order) two_pending
    = (two_pending, StatusMethodNotAllowed) ∧
  handle_orders no_orders_faults (OrdersRequest POST true widget_order) two_pending
    = (two_pending, StatusBadRequest) ∧
  (handle_orders (OrdersFaults false false true)
     (OrdersRequest POST false widget_order) two_pending).2 = StatusInternalServerError ∧
  lookup_order
    (handle_orders (OrdersFaults false false true)
       (OrdersRequest POST false widget_order) two_pending).1 2 = Some widget_order.
Proof.
  split; [|split].
  - apply (X11_orders_answers no_orders_faults
             (OrdersRequest GET false widget_order) two_pending). discriminate.
  - apply (X11_orders_answers no_orders_faults
             (OrdersRequest POST true widget_order) two_pending); reflexivity.
  - destruct (proj2 (proj2 (proj2 (X11_orders_answers (OrdersFaults false false true)
                (OrdersRequest POST false widget_order) two_pending)))
                {[1 := set_high ninja_order]} 2)
      as (H1 & _ & H2); [vm_compute; reflexivity..|].
    exact (conj H1 H2).
Defined.

(** ** The handler of /orders/priority *)

(** X12: the answer of the handler of [/orders/priority] tells whether
    anything was committed: the store after the call differs from the
    store before it exactly when the answer is 200.  A method other than
    PATCH is answered 405 and a form that does not parse 400, before any
    transaction is begun. *)
Theorem X12_priority_answer_tells_commit (fk : bool) (f : priority_faults)
    (req : priority_request) (db : DB) :
  ((handle_priority fk f req db).1 ≠ db ↔ (handle_priority fk f req db).2 = StatusOK) ∧
  (pr_method req ≠ PATCH →
   handle_priority fk f req db = (db, StatusMethodNotAllowed)) ∧
  (pr_method req = PATCH → pr_parse_fails req = true →
   handle_priority fk f req db = (db, StatusBadRequest)).
Proof.
  split_and!.
  - destruct (handle_priority_cases fk f req db)
      as [[Hs Heq]|(os & pcs & k & Hos & Hpcs & Hk & Heq)].
    + split; [by intros ?|by intros ?].
    + rewrite Heq. simpl. split; [done|]. intros _ Hsame.
      apply (f_equal (λ d, lookup_change d k)) in Hsame.
      unfold lookup_change in Hsame. rewrite Hpcs in Hsame. simpl in Hsame.
      rewrite lookup_insert_eq, (next_rowid_fresh _ _ Hk) in Hsame. done.
  - intros Hm. unfold handle_priority. by rewrite bool_decide_eq_true_2.
  - intros Hm Hp. unfold handle_priority.
    rewrite bool_decide_eq_false_2 by (by intros ?). by rewrite Hp.
Qed.

Lemma X12_witness :
  handle_priority dsn_foreign_keys no_priority_faults
    (PriorityRequest POST false (VInt 1)) two_pending
    = (two_pending, StatusMethodNotAllowed) ∧
  handle_priority dsn_foreign_keys no_priority_faults
    (PriorityRequest PATCH true (VInt 1)) two_pending
    = (two_pending, StatusBadRequest) ∧
  (handle_priority dsn_foreign_keys no_priority_faults
     (PriorityRequest PATCH false (VInt 1)) two_pending).1 ≠ two_pending.
Proof.
  split; [|split].
  - apply (X12_priority_answer_tells_commit dsn_foreign_keys no_priority_faults
             (PriorityRequest POST false (VInt 1)) two_pending). discriminate.
  - apply (X12_priority_answer_tells_commit dsn_foreign_keys no_priority_faults
             (PriorityRequest PATCH true (VInt 1)) two_pending); reflexivity.
  - apply (proj1 (X12_priority_answer_tells_commit dsn_foreign_keys no_priority_faults
             (PriorityRequest PATCH false (VInt 1)) two_pending)). reflexivity.
Defined.

Lemma update_priority_idemp id os :
  update_priority id (update_priority id os) = update_priority id os.
Proof.
  apply map_eq. intros j. rewrite !update_priority_lookup.
  destruct (decide _); [|done]. by destruct (os !! j).
Qed.

(** X13: escalating the same order twice.  When both calls answer 200, the
    order table after the second call is the one after the first, and the
    event table holds two rows for the two calls, the second under the
    larger id, both with priority high and processed = false. *)
Theorem X13_escalating_twice (fk : bool) (f1 f2 : priority_faults)
    (req : priority_request) (db : DB) :
  (handle_priority fk f1 req db).2 = StatusOK →
  (handle_priority fk f2 req (handle_priority fk f1 req db).1).2 = StatusOK →
  orders (handle_priority fk f2 req (handle_priority fk f1 req db).1).1
    = orders (handle_priority fk f1 req db).1 ∧
  ∃ k1 k2,
    k1 < k2 ∧
    lookup_change db k1 = None ∧ lookup_change db k2 = None ∧
    lookup_change (handle_priority fk f1 req db).1 k2 = None ∧
    lookup_change (handle_priority fk f2 req (handle_priority fk f1 req db).1).1 k1
      = Some (PriorityChange (pr_id req) high false) ∧
    lookup_change (handle_priority fk f2 req (handle_priority fk f1 req db).1).1 k2
      = Some (PriorityChange (pr_id req) high false).
Proof.
  intros H1 H2.
  destruct (handle_priority_cases fk f1 req db)
    as [[? _]|(os & pcs & k1 & Hos & Hpcs & Hk1 & Heq1)]; [done|].
  rewrite Heq1 in H2 |- *. simpl in H2 |- *.
  destruct (handle_priority_cases fk f2 req (escalated req os pcs k1 db))
    as [[? _]|(os' & pcs' & k2 & Hos' & Hpcs' & Hk2 & Heq2)]; [done|].
  rewrite Heq2. simpl in Hos', Hpcs'. simplify_eq. simpl.
  split; [by rewrite update_priority_idemp|].
  assert (Hlt : k1 < k2).
  { eapply next_rowid_gt; [done|]. rewrite lookup_insert_eq. eauto. }
  exists k1, k2. unfold lookup_change. rewrite Hpcs. simpl.
  pose proof (next_rowid_fresh _ _ Hk1) as Hf1.
  pose proof (next_rowid_fresh _ _ Hk2) as Hf2.
  split_and!; [done|done| |done| |].
  - rewrite lookup_insert_ne in Hf2 by lia. done.
  - rewrite lookup_insert_ne by lia. apply lookup_insert_eq.
  - apply lookup_insert_eq.
Qed.

(** The order of [one_normal_order] escalated twice: after the first call
    its priority is high, the second call leaves the orders as they are,
    and there are two events for it. *)
Lemma X13_witness :
  lookup_order one_normal_order 1 = Some ninja_order ∧
  lookup_order
    (handle_priority dsn_foreign_keys no_priority_faults
       (PriorityRequest PATCH false (VInt 1)) one_normal_order).1 1
    = Some (OrderRow "alice" "ninja" (VInt 1) "1 Main St" "high") ∧
  orders
    (handle_priority dsn_foreign_keys no_priority_faults
       (PriorityRequest PATCH false (VInt 1))
       (handle_priority dsn_foreign_keys no_priority_faults
          (PriorityRequest PATCH false (VInt 1)) one_normal_order).1).1
  = orders
      (handle_priority dsn_foreign_keys no_priority_faults
         (PriorityRequest PATCH false (VInt 1)) one_normal_order).1 ∧
  ∃ k1 k2,
    k1 < k2 ∧
    lookup_change one_normal_order k1 = None ∧
    lookup_change one_normal_order k2 = None ∧
    lookup_change
      (handle_priority dsn_foreign_keys no_priority_faults
         (PriorityRequest PATCH false (VInt 1)) one_normal_order).1 k2 = None ∧
    lookup_change
      (handle_priority dsn_foreign_keys no_priority_faults
         (PriorityRequest PATCH false (VInt 1))
         (handle_priority dsn_foreign_keys no_priority_faults
            (PriorityRequest PATCH false (VInt 1)) one_normal_order).1).1 k1
      = Some (PriorityChange (VInt 1) high false) ∧
    lookup_change
      (handle_priority dsn_foreign_keys no_priority_faults
         (PriorityRequest PATCH false (VInt 1))
         (handle_priority dsn_foreign_keys no_priority_faults
            (PriorityRequest PATCH false (VInt 1)) one_normal_order).1).1 k2
      = Some (PriorityChange (VInt 1) high false).
Proof.
  split; [reflexivity|]. split; [reflexivity|].
  apply (X13_escalating_twice dsn_foreign_keys no_priority_faults no_priority_faults
           (PriorityRequest PATCH false (VInt 1)) one_normal_order); reflexivity.
Defined.

(** X22: the escalation of an order that exists, with foreign keys
    enforced or not.  Either the handler answers an error and the store is
    as before; or it answers 200 and both writes are committed: the order
    has priority high and its four other columns as before, no other order
    has changed, one event for the order, with priority high and
    processed = false, has been appended under an id larger than the id of
    every event before, and no other event nor the watermark has
    changed. *)
Theorem X22_escalation_of_an_existing_order (fk : bool) (f : priority_faults)
    (req : priority_request) (db : DB) (k : Z) (o : order_row) :
  pr_id req = VInt k → lookup_order db k = Some o →
  ((handle_priority fk f req db).2 ≠ StatusOK ∧ (handle_priority fk f req db).1 = db) ∨
  ((handle_priority fk f req db).2 = StatusOK ∧
   (∃ o', lookup_order (handle_priority fk f req db).1 k = Some o' ∧
          priority o' = "high" ∧
          customer_name o' = customer_name o ∧ product_name o' = product_name o ∧
          quantity o' = quantity o ∧ shipping_address o' = shipping_address o) ∧
   (∀ j, j ≠ k → lookup_order (handle_priority fk f req db).1 j = lookup_order db j) ∧
   (∃ e, lookup_change db e = None ∧
         (∀ j, is_Some (lookup_change db j) → j < e) ∧
         lookup_change (handle_priority fk f req db).1 e
           = Some (PriorityChange (VInt k) "high" false) ∧
         ∀ j, j ≠ e → lookup_change (handle_priority fk f req db).1 j
                      = lookup_change db j) ∧
   polling_state (handle_priority fk f req db).1 = polling_state db).
Proof.
  intros Hid Ho.
  destruct (handle_priority_cases fk f req db)
    as [?|(os & pcs & e & Hos & Hpcs & He & Heq)]; [by left|].
  right. rewrite Heq. simpl. unfold lookup_order, lookup_change in *.
  rewrite Hos in Ho |- *. rewrite Hpcs. simpl in *. rewrite Hid.
  split_and!; [done| | | |done].
  - exists (set_high o). rewrite update_priority_lookup, decide_True by done.
    by rewrite Ho.
  - intros j Hne. rewrite update_priority_lookup, decide_False by congruence. done.
  - exists e. split_and!.
    + by apply next_rowid_fresh.
    + intros j Hj. by eapply next_rowid_gt.
    + apply lookup_insert_eq.
    + intros j Hne. by rewrite lookup_insert_ne.
Qed.

(** The order of [one_normal_order], escalated without faults: 200, the
    order has priority high, and event 1 is appended. *)
Lemma X22_witness :
  (handle_priority dsn_foreign_keys no_priority_faults
     (PriorityRequest PATCH false (VInt 1)) one_normal_order).2 = StatusOK ∧
  ∃ o', lookup_order
          (handle_priority dsn_foreign_keys no_priority_faults
             (PriorityRequest PATCH false (VInt 1)) one_normal_order).1 1 = Some o' ∧
        priority o' = "high" ∧ product_name o' = "ninja".
Proof.
  destruct (X22_escalation_of_an_existing_order dsn_foreign_keys no_priority_faults
              (PriorityRequest PATCH false (VInt 1)) one_normal_order 1 ninja_order
              eq_refl eq_refl)
    as [[Hs _]|(Hs & (o' & Ho' & Hp & _ & Hn & _) & _)].
  - exfalso. apply Hs. reflexivity.
  - split; [exact Hs|]. exists o'. split; [exact Ho'|]. split; [exact Hp|exact Hn].
Defined.

(** An event whose [order_id] is kept as text joins with no order. *)
Lemma matches_filter_text db s p b :
  matches_filter db (PriorityChange (VText s) p b) = false.
Proof. unfold matches_filter. by destruct (orders db). Qed.

Lemma run_text_event_kept fk ops db i s p b :
  lookup_change db i = Some (PriorityChange (VText s) p b) →
  lookup_change (run fk db ops) i = Some (PriorityChange (VText s) p b).
Proof.
  revert db. induction ops as [|o ops IH]; intros db Hi; [done|].
  simpl. apply IH.
  destruct (step_lookup_change fk db o i _ Hi) as [?|(_ & _ & Hm & _)]; [done|].
  by rewrite matches_filter_text in Hm.
Qed.

(** X14: an escalation whose id is not an integer.  When the handler
    answers 200 to it, no order has changed, an event row with that text as
    its order id has been appended, and no later operation of the system
    ever processes this event. *)
Theorem X14_escalation_with_text_id (fk : bool) (f : priority_faults)
    (m : http_method) (p : bool) (s : string) (db : DB) (ops : list op) :
  (handle_priority fk f (PriorityRequest m p (VText s)) db).2 = StatusOK →
  orders (handle_priority fk f (PriorityRequest m p (VText s)) db).1 = orders db ∧
  ∃ k,
    lookup_change db k = None ∧
    lookup_change (handle_priority fk f (PriorityRequest m p (VText s)) db).1 k
      = Some (PriorityChange (VText s) high false) ∧
    lookup_change
      (run fk (handle_priority fk f (PriorityRequest m p (VText s)) db).1 ops) k
      = Some (PriorityChange (VText s) high false).
Proof.
  intros Hs.
  destruct (handle_priority_cases fk f (PriorityRequest m p (VText s)) db)
    as [[? _]|(os & pcs & k & Hos & Hpcs & Hk & Heq)]; [done|].
  rewrite Heq. simpl. split; [done|]. exists k.
  assert (Hnew : lookup_change (escalated (PriorityRequest m p (VText s)) os pcs k db) k
                 = Some (PriorityChange (VText s) high false)).
  { unfold lookup_change. simpl. apply lookup_insert_eq. }
  split_and!; [|done|by apply run_text_event_kept].
  unfold lookup_change. rewrite Hpcs. simpl. by apply next_rowid_fresh.
Qed.

Lemma X14_witness :
  ∃ k,
    lookup_change fresh_store k = None ∧
    lookup_change
      (handle_priority dsn_foreign_keys no_priority_faults
         (PriorityRequest PATCH false (VText "")) fresh_store).1 k
      = Some (PriorityChange (VText "") high false) ∧
    lookup_change
      (run dsn_foreign_keys
         (handle_priority dsn_foreign_keys no_priority_faults
            (PriorityRequest PATCH false (VText "")) fresh_store).1
         [post ninja_order; poll_ok]) k
      = Some (PriorityChange (VText "") high false).
Proof.
  apply (X14_escalation_with_text_id dsn_foreign_keys no_priority_faults
           PATCH false "" fresh_store [post ninja_order; poll_ok]).
  reflexivity.
Defined.

(** ** Orders over the life of the system *)

Lemma step_lookup_order fk db o k ord :
  lookup_order db k = Some ord →
  lookup_order (step fk db o) k = Some ord ∨
  lookup_order (step fk db o) k = Some (set_high ord).
Proof.
  intros Hk. destruct o as [f|f req|f req|f]; simpl.
  - left. unfold lookup_order in *.
    destruct (orders db) as [os|] eqn:Hos; [|done].
    by rewrite (initDB_orders f db os).
  - left.
    destruct (handle_orders_cases f req db)
      as [[-> _]|(os & j & _ & _ & _ & _ & Hos & Hj & -> & _)]; [done|].
    unfold lookup_order in *. rewrite Hos in Hk. simpl in *.
    rewrite lookup_insert_ne; [done|].
    intros ->. apply next_rowid_fresh in Hj. congruence.
  - destruct (handle_priority_cases fk f req db)
      as [[_ ->]|(os & pcs & j & Hos & Hpcs & Hj & ->)]; [by left|].
    unfold lookup_order in *. rewrite Hos in Hk. simpl in *.
    rewrite update_priority_lookup, Hk. destruct (decide _); [by right|by left].
  - left. unfold lookup_order. by rewrite poll_cycle_orders.
Qed.

Lemma set_high_idemp ord : set_high (set_high ord) = set_high ord.
Proof. done. Qed.

Lemma run_lookup_order fk ops db k ord :
  lookup_order db k = Some ord →
  lookup_order (run fk db ops) k = Some ord ∨
  lookup_order (run fk db ops) k = Some (set_high ord).
Proof.
  revert db ord. induction ops as [|o ops IH]; intros db ord Hk; [by left|].
  simpl. destruct (step_lookup_order fk db o k ord Hk) as [H|H].
  - by apply IH.
  - right. destruct (IH _ _ H) as [?|?]; by rewrite ?set_high_idemp in *.
Qed.

(** X15: over any operations of the system, with any faults, an order is
    never deleted, its customer, product, quantity and address never
    change, and its priority is the one it had or "high". *)
Theorem X15_orders_change_in_priority_only (fk : bool) (ops : list op) (db : DB)
    (k : Z) (ord : order_row) :
  lookup_order db k = Some ord →
  ∃ ord',
    lookup_order (run fk db ops) k = Some ord' ∧
    customer_name ord' = customer_name ord ∧ product_name ord' = product_name ord ∧
    quantity ord' = quantity ord ∧ shipping_address ord' = shipping_address ord ∧
    (priority ord' = priority ord ∨ priority ord' = high).
Proof.
  intros Hk. destruct (run_lookup_order fk ops db k ord Hk) as [H|H].
  - exists ord. by split_and!; [..|left].
  - exists (set_high ord). by split_and!; [..|right].
Qed.

Lemma X15_witness :
  ∃ ord',
    lookup_order
      (run dsn_foreign_keys two_pending [post widget_order; escalate 1; poll_ok]) 1
      = Some ord' ∧
    customer_name ord' = customer_name (set_high ninja_order) ∧
    product_name ord' = product_name (set_high ninja_order) ∧
    quantity ord' = quantity (set_high ninja_order) ∧
    shipping_address ord' = shipping_address (set_high ninja_order) ∧
    (priority ord' = priority (set_high ninja_order) ∨ priority ord' = high).
Proof.
  apply (X15_orders_change_in_priority_only dsn_foreign_keys
           [post widget_order; escalate 1; poll_ok] two_pending 1).
  reflexivity.
Defined.

(** X16: whether an event matches the filter is settled once its order
    exists: for an event whose order id names an order of the store, the
    filter gives the same answer after any operations of the system. *)
Theorem X16_filter_answer_is_stable (fk : bool) (ops : list op) (db : DB)
    (pc : priority_change) (k : Z) :
  order_id pc = VInt k → is_Some (lookup_order db k) →
  matches_filter (run fk db ops) pc = matches_filter db pc.
Proof.
  intros Hid [ord Hk].
  assert (Hdb : matches_filter db pc = bool_decide (product_name ord = ninja)).
  { unfold matches_filter, references_ninja, lookup_order in *. rewrite Hid.
    destruct (orders db) as [os|]; [|done]. simpl in Hk. by rewrite Hk. }
  rewrite Hdb.
  destruct (run_lookup_order fk ops db k ord Hk) as [H|H];
    unfold matches_filter, references_ninja, lookup_order in *; rewrite Hid;
    destruct (orders (run fk db ops)) as [os|]; try done; simpl in H; by rewrite H.
Qed.

Lemma X16_witness :
  matches_filter
    (run dsn_foreign_keys two_pending [post widget_order; escalate 1; poll_ok])
    (PriorityChange (VInt 1) high false)
  = matches_filter two_pending (PriorityChange (VInt 1) high false).
Proof.
  apply (X16_filter_answer_is_stable dsn_foreign_keys
           [post widget_order; escalate 1; poll_ok] two_pending
           (PriorityChange (VInt 1) high false) 1); [reflexivity|].
  exists (set_high ninja_order). reflexivity.
Defined.

(** ** Who writes what *)

(** X17: only the poller writes the watermark and the events that exist,
    and only the handlers write orders: startup and both handlers leave a
    watermark row and every event of the store as they are, and startup
    and a cycle of the poller leave every order as it is. *)
Theorem X17_single_writers (fk : bool) (db : DB) (fi : init_faults)
    (fo : orders_faults) (ro : orders_request)
    (fp : priority_faults) (rp : priority_request) (f : poll_faults) :
  (∀ W o, o = Startup fi ∨ o = Orders fo ro ∨ o = Priority fp rp →
          watermark db = Some W → watermark (step fk db o) = Some W) ∧
  (∀ i pc o, o = Startup fi ∨ o = Orders fo ro ∨ o = Priority fp rp →
             lookup_change db i = Some pc → lookup_change (step fk db o) i = Some pc) ∧
  (∀ k ord o, o = Startup fi ∨ o = Poll f →
              lookup_order db k = Some ord → lookup_order (step fk db o) k = Some ord).
Proof.
  split_and!.
  - intros W o Ho HW. apply watermark_Some in HW. apply watermark_Some.
    destruct Ho as [-> | [-> | ->]]; simpl.
    + by apply initDB_polling_state.
    + by rewrite (proj2 (handle_orders_keeps fo ro db)).
    + by rewrite handle_priority_polling_state.
  - intros i pc o Ho Hi.
    destruct (step_lookup_change fk db o i pc Hi)
      as [?|(_ & _ & _ & f' & W & -> & _)]; [done|].
    by destruct Ho as [?|[?|?]].
  - intros k ord o Ho Hk. destruct Ho as [-> | ->]; simpl.
    + unfold lookup_order in *. destruct (orders db) as [os|] eqn:Hos; [|done].
      by rewrite (initDB_orders fi db os).
    + unfold lookup_order. by rewrite poll_cycle_orders.
Qed.

Lemma X17_witness :
  watermark
    (step dsn_foreign_keys (poll_cycle no_poll_faults two_pending).1
       (Priority no_priority_faults (PriorityRequest PATCH false (VInt 1)))) = Some 2 ∧
  lookup_order (step dsn_foreign_keys two_pending (Poll no_poll_faults)) 1
    = Some (set_high ninja_order).
Proof.
  split.
  - apply (proj1 (X17_single_writers dsn_foreign_keys
             (poll_cycle no_poll_faults two_pending).1 no_init_faults
             no_orders_faults (OrdersRequest POST false widget_order)
             no_priority_faults (PriorityRequest PATCH false (VInt 1))
             no_poll_faults)); [|reflexivity].
    right. right. reflexivity.
  - apply (proj2 (proj2 (X17_single_writers dsn_foreign_keys two_pending no_init_faults
             no_orders_faults (OrdersRequest POST false widget_order)
             no_priority_faults (PriorityRequest PATCH false (VInt 1))
             no_poll_faults))); [|reflexivity].
    right. reflexivity.
Defined.

(** ** The watermark in the stores the program reaches *)

Lemma initDB_watermark f db W :
  watermark (initDB f db).1 = Some W →
  watermark db = Some W ∨ (watermark db = None ∧ W = 0).
Proof.
  destruct db as [os pcs [[w|]|]], f as [[] [] [] []]; simpl;
    intros [=]; subst; auto.
Qed.

Lemma step_processed_kept fk db o i pc :
  lookup_change db i = Some pc → processed pc = true →
  lookup_change (step fk db o) i = Some pc.
Proof.
  intros Hi Hp.
  destruct (step_lookup_change fk db o i pc Hi) as [?|(_ & Hp' & _)]; [done|].
  congruence.
Qed.

Lemma step_lookup_change_is_Some fk db o i :
  is_Some (lookup_change db i) → is_Some (lookup_change (step fk db o) i).
Proof.
  intros [pc Hi].
  destruct (step_lookup_change fk db o i pc Hi) as [->|[-> _]]; eauto.
Qed.

Lemma step_watermark_is_event_id fk db o :
  watermark_is_event_id db → watermark_is_event_id (step fk db o).
Proof.
  intros HJ W' HW'.
  assert (Hkeep : watermark db = Some W' → W' = 0 ∨
            (0 < W' ∧ is_Some (lookup_change (step fk db o) W'))).
  { intros HW. destruct (HJ W' HW) as [?|[? Hev]]; [by left|right].
    split; [done|]. by apply step_lookup_change_is_Some. }
  destruct o as [f|f req|f req|f]; simpl in *.
  - destruct (initDB_watermark f db W' HW') as [?|[_ ?]]; [auto|by left].
  - apply Hkeep. unfold watermark in *.
    by rewrite (proj2 (handle_orders_keeps f req db)) in HW'.
  - apply Hkeep. unfold watermark in *.
    by rewrite handle_priority_polling_state in HW'.
  - destruct (cycle_effect_cases f db) as [Heq|(os & pcs & pcs' & W & Hce)].
    { apply Hkeep. by rewrite Heq in HW'. }
    pose proof (ce_watermark _ _ _ _ _ _ _ _ Hce) as HW.
    rewrite (ce_watermark' Hce) in HW'. injection HW' as HW'.
    destruct (watermark_written (poll_cycle f db).2) as [m|] eqn:Hw; simpl in HW'.
    2:{ subst W'. by apply Hkeep. }
    subst m. right.
    pose proof (ce_written_gt Hce _ Hw) as Hgt.
    pose proof (ce_written_last Hce _ Hw) as Hlast.
    assert (0 ≤ W) by (destruct (HJ W HW) as [?|[? _]]; lia).
    split; [lia|].
    destruct (last (marked_ids (poll_cycle f db).2)) as [m|] eqn:Hl; simpl in Hlast;
      [subst m|lia].
    apply last_Some_elem_of in Hl.
    destruct (ce_marked_selected Hce _ Hl) as [_ (pc & Hpc & _)].
    apply (step_lookup_change_is_Some fk db (Poll f)).
    unfold lookup_change. rewrite (ce_changes _ _ _ _ _ _ _ _ Hce). simpl. eauto.
Qed.

Lemma run_watermark_is_event_id fk ops db :
  watermark_is_event_id db → watermark_is_event_id (run fk db ops).
Proof.
  revert db. induction ops as [|o ops IH]; intros db HJ; [done|].
  simpl. by apply IH, step_watermark_is_event_id.
Qed.

Lemma no_tables_watermark_is_event_id : watermark_is_event_id no_tables.
Proof. by intros W. Qed.

(** X18: in every store the program reaches from a database file that did
    not exist, by any operations with any faults, the watermark is 0 or the
    id of an event of the store; it is never negative and never an id that
    no event has.  (The event need not be processed: a cycle that SQLite
    cancelled leaves the watermark on an event whose flag is not set.) *)
Theorem X18_watermark_is_an_event_id (fk : bool) (ops : list op) (W : Z) :
  watermark (run fk no_tables ops) = Some W →
  W = 0 ∨ (0 < W ∧ is_Some (lookup_change (run fk no_tables ops) W)).
Proof.
  apply (run_watermark_is_event_id fk ops no_tables).
  apply no_tables_watermark_is_event_id.
Qed.

(** After a cycle in which a failing [rows.Next] cancelled the transaction
    the watermark is 2, and event 2 is in the store. *)
Lemma X18_witness :
  watermark
    (run dsn_foreign_keys no_tables
       [Startup no_init_faults; post ninja_order; escalate 1; escalate 1;
        Poll (next_cancels_after 2)]) = Some 2 ∧
  (2 = 0 ∨
   (0 < 2 ∧ is_Some
      (lookup_change
         (run dsn_foreign_keys no_tables
            [Startup no_init_faults; post ninja_order; escalate 1; escalate 1;
             Poll (next_cancels_after 2)]) 2))).
Proof.
  split; [reflexivity|].
  apply (X18_watermark_is_an_event_id dsn_foreign_keys
           [Startup no_init_faults; post ninja_order; escalate 1; escalate 1;
            Poll (next_cancels_after 2)] 2).
  reflexivity.
Defined.

(** X19: a new event is in reach of the next cycle.  In every store the
    program reaches from a database file that did not exist, an escalation
    answered 200 has stored its event under an id that no event had and
    that is above the watermark, so the query's [pc.id > lastID] does not
    hide it. *)
Theorem X19_new_event_is_above_watermark (fk : bool) (ops : list op)
    (f : priority_faults) (req : priority_request) (W : Z) :
  watermark (run fk no_tables ops) = Some W →
  (handle_priority fk f req (run fk no_tables ops)).2 = StatusOK →
  ∃ k,
    W < k ∧ lookup_change (run fk no_tables ops) k = None ∧
    lookup_change (handle_priority fk f req (run fk no_tables ops)).1 k
      = Some (PriorityChange (pr_id req) high false).
Proof.
  intros HW Hs.
  destruct (handle_priority_cases fk f req (run fk no_tables ops))
    as [[? _]|(os & pcs & k & Hos & Hpcs & Hk & Heq)]; [done|].
  exists k. rewrite Heq. unfold lookup_change. rewrite Hpcs. simpl.
  split_and!; [|by apply next_rowid_fresh|apply lookup_insert_eq].
  destruct (run_watermark_is_event_id fk ops no_tables
              no_tables_watermark_is_event_id W HW) as [->|[_ Hev]].
  - by eapply next_rowid_pos.
  - eapply next_rowid_gt; [done|]. unfold lookup_change in Hev.
    by rewrite Hpcs in Hev.
Qed.

Lemma X19_witness :
  ∃ k,
    2 < k ∧
    lookup_change
      (run dsn_foreign_keys no_tables
         [Startup no_init_faults; post ninja_order; escalate 1; escalate 1; poll_ok]) k
      = None ∧
    lookup_change
      (handle_priority dsn_foreign_keys no_priority_faults
         (PriorityRequest PATCH false (VInt 1))
         (run dsn_foreign_keys no_tables
            [Startup no_init_faults; post ninja_order; escalate 1; escalate 1; poll_ok])).1 k
      = Some (PriorityChange (VInt 1) high false).
Proof.
  apply (X19_new_event_is_above_watermark dsn_foreign_keys
           [Startup no_init_faults; post ninja_order; escalate 1; escalate 1; poll_ok]
           no_priority_faults (PriorityRequest PATCH false (VInt 1)) 2);
    reflexivity.
Defined.

(** ** Runs that trigger no defect *)

(** Startup, the handlers, and a cycle in which no row fails and that
    SQLite does not cancel keep the watermark on a processed event. *)
Lemma step_watermark_is_processed_id fk db o :
  (∀ f, o = Poll f → (∀ i, row_ok f i) ∧ next_cancels (cancels f) = false) →
  watermark_is_processed_id db → watermark_is_processed_id (step fk db o).
Proof.
  intros Hpoll HJ W' HW'.
  assert (Hkeep : watermark db = Some W' → W' = 0 ∨
            (0 < W' ∧ ∃ pc, lookup_change (step fk db o) W' = Some pc ∧
                            processed pc = true)).
  { intros HW. destruct (HJ W' HW) as [?|[? (pc & Hpc & Hp)]]; [by left|right].
    split; [done|]. exists pc. split; [|done]. by apply step_processed_kept. }
  destruct o as [f|f req|f req|f]; simpl in *.
  - destruct (initDB_watermark f db W' HW') as [?|[_ ?]]; [auto|by left].
  - apply Hkeep. unfold watermark in *.
    by rewrite (proj2 (handle_orders_keeps f req db)) in HW'.
  - apply Hkeep. unfold watermark in *.
    by rewrite handle_priority_polling_state in HW'.
  - destruct (Hpoll f eq_refl) as [Hok Hnc].
    destruct (poll_cycle_rows_ok_cases f db Hok Hnc)
      as [Heq|(os & pcs & pcs' & W & Hcc)].
    { apply Hkeep. by rewrite Heq in HW'. }
    pose proof (cc_watermark _ _ _ _ _ _ _ _ Hcc) as HW.
    rewrite (cc_watermark' Hcc) in HW'. injection HW' as HW'.
    destruct (watermark_written (poll_cycle f db).2) as [m|] eqn:Hw; simpl in HW'.
    2:{ subst W'. by apply Hkeep. }
    subst m. right.
    pose proof (cc_written_gt Hcc _ Hw) as Hgt.
    pose proof (cc_written_last Hcc _ Hw) as Hlast.
    assert (0 ≤ W) by (destruct (HJ W HW) as [?|[? _]]; lia).
    split; [lia|].
    destruct (last (marked_ids (poll_cycle f db).2)) as [m|] eqn:Hl; simpl in Hlast;
      [subst m|lia].
    apply last_Some_elem_of in Hl.
    destruct (cc_marked_selected Hcc _ Hl) as [_ (pc & Hpc & _)].
    exists (mark_processed pc). split; [|done].
    rewrite (cc_lookup_change Hcc), decide_True by done.
    unfold lookup_change. by rewrite (cc_changes _ _ _ _ _ _ _ _ Hcc); simpl; rewrite Hpc.
Qed.

Lemma store_ok_ext db db' :
  watermark db' = watermark db →
  (∀ i, lookup_change db' i = lookup_change db i) →
  (∀ k, lookup_order db' k = lookup_order db k) →
  (∀ pc, matches_filter db' pc = matches_filter db pc) →
  store_ok db → store_ok db'.
Proof.
  intros HW Hc Ho Hm (Hsome & Hinv & HJ & Href).
  split_and!.
  - by rewrite HW.
  - intros W i pc. rewrite HW, Hc, Hm. apply Hinv.
  - intros W. rewrite HW, Hc. apply HJ.
  - intros i pc. rewrite Hc. intros (k & ? & ?)%Href. exists k. by rewrite Ho.
Qed.

Lemma initDB_keeps_view f db :
  (is_Some (watermark db) → watermark (initDB f db).1 = watermark db) ∧
  (∀ i, lookup_change (initDB f db).1 i = lookup_change db i) ∧
  (∀ k, lookup_order (initDB f db).1 k = lookup_order db k) ∧
  (∀ pc, matches_filter (initDB f db).1 pc = matches_filter db pc).
Proof.
  split_and!.
  - intros [W HW]. rewrite HW. apply watermark_Some, initDB_polling_state.
    by apply watermark_Some.
  - intros i. unfold lookup_change.
    destruct (priority_changes db) as [pcs|] eqn:Hpcs.
    { by rewrite (initDB_priority_changes f db pcs). }
    destruct db as [os pcs ps], f as [[] [] [] []]; simpl in *; subst;
      try done; destruct ps as [[w|]|]; simpl; by rewrite ?lookup_empty.
  - intros k. unfold lookup_order.
    destruct (orders db) as [os|] eqn:Hos.
    { by rewrite (initDB_orders f db os). }
    destruct db as [os pcs ps], f as [[] [] [] []]; simpl in *; subst;
      try done; destruct ps as [[w|]|]; simpl; by rewrite ?lookup_empty.
  - intros pc. unfold matches_filter.
    destruct (orders db) as [os|] eqn:Hos.
    { by rewrite (initDB_orders f db os). }
    assert (He : references_ninja ∅ pc = false).
    { unfold references_ninja. destruct (order_id pc); [|done]. by rewrite lookup_empty. }
    destruct db as [os pcs ps], f as [[] [] [] []]; simpl in *; subst;
      try done; destruct ps as [[w|]|]; simpl; by rewrite ?He.
Qed.

Lemma references_ninja_insert_fresh os k ord pc j :
  order_id pc = VInt j → is_Some (os !! j) → os !! k = None →
  references_ninja (<[k := ord]> os) pc = references_ninja os pc.
Proof.
  intros Hid [x Hj] Hk. unfold references_ninja. rewrite Hid.
  rewrite lookup_insert_ne; [done|]. intros ->. congruence.
Qed.

Lemma references_ninja_update_priority id os pc :
  references_ninja (update_priority id os) pc = references_ninja os pc.
Proof.
  unfold references_ninja. destruct (order_id pc) as [j|]; [|done].
  rewrite update_priority_lookup. destruct (decide _); [|done].
  by destruct (os !! j).
Qed.

Lemma handle_orders_store_ok f req db :
  store_ok db → store_ok (handle_orders f req db).1.
Proof.
  intros Hok.
  destruct (handle_orders_cases f req db)
    as [[-> _]|(os & k & _ & _ & _ & _ & Hos & Hk & -> & _)]; [done|].
  pose proof (next_rowid_fresh _ _ Hk) as Hfresh.
  destruct Hok as (Hsome & Hinv & HJ & Href).
  assert (Hm : ∀ i pc, lookup_change db i = Some pc →
            matches_filter (set_orders db (<[k:=or_form req]> os)) pc
            = matches_filter db pc).
  { intros i pc (j & Hid & Hj)%Href. unfold matches_filter, lookup_order in *.
    rewrite Hos in Hj |- *. simpl in *. by eapply references_ninja_insert_fresh. }
  split_and!; [done| |done|].
  - intros W i pc HW Hi Hle. rewrite (Hm i pc Hi). by apply (Hinv W i pc).
  - intros i pc Hi. destruct (Href i pc Hi) as (j & Hid & Hj).
    exists j. split; [done|]. unfold lookup_order in *. rewrite Hos in Hj. simpl in *.
    rewrite lookup_insert_ne; [done|]. intros ->. destruct Hj. congruence.
Qed.

Lemma handle_priority_store_ok fk f req db :
  store_ok db →
  (∃ k, pr_id req = VInt k ∧ is_Some (lookup_order db k)) →
  store_ok (handle_priority fk f req db).1.
Proof.
  intros Hok (k0 & Hid0 & Hk0).
  pose proof Hok as (Hsome & Hinv & HJ & Href).
  assert (HJ' : watermark_is_processed_id (step fk db (Priority f req)))
    by (apply step_watermark_is_processed_id; [by intros ? [=]|done]).
  simpl in HJ'.
  destruct (handle_priority_cases fk f req db)
    as [[_ Heq]|(os & pcs & k & Hos & Hpcs & Hk & Heq)]; rewrite Heq in HJ' |- *;
    [done|]. simpl in HJ'.
  pose proof (next_rowid_fresh _ _ Hk) as Hfresh.
  assert (Hexists : ∀ j, is_Some (lookup_order db j) →
            is_Some (lookup_order (escalated req os pcs k db) j)).
  { intros j. unfold lookup_order. rewrite Hos. simpl.
    rewrite update_priority_lookup. destruct (decide _); [|done].
    by rewrite fmap_is_Some. }
  split_and!; [done| |done|].
  - intros W i pc HW Hi Hle Hm.
    assert (HWk : W < k).
    { destruct (HJ W HW) as [->|[_ (pcW & HpcW & _)]]; [by eapply next_rowid_pos|].
      eapply next_rowid_gt; [done|]. unfold lookup_change in HpcW.
      rewrite Hpcs in HpcW. simpl in HpcW. eauto. }
    apply (Hinv W i pc); [done| |done|].
    + unfold lookup_change in Hi |- *. simpl in Hi.
      rewrite lookup_insert_ne in Hi by lia. by rewrite Hpcs.
    + unfold matches_filter in Hm |- *. simpl in Hm.
      rewrite references_ninja_update_priority in Hm. by rewrite Hos.
  - intros i pc Hi. unfold lookup_change in Hi. simpl in Hi.
    destruct (decide (i = k)) as [->|Hne].
    + rewrite lookup_insert_eq in Hi. injection Hi as <-. simpl.
      exists k0. split; [done|]. by apply Hexists.
    + rewrite lookup_insert_ne in Hi by done.
      destruct (Href i pc) as (j & Hid & Hj).
      { unfold lookup_change. by rewrite Hpcs. }
      exists j. split; [done|]. by apply Hexists.
Qed.

Lemma poll_cycle_store_ok f db :
  store_ok db → (∀ i, row_ok f i) → next_cancels (cancels f) = false →
  store_ok (poll_cycle f db).1.
Proof.
  intros (Hsome & Hinv & HJ & Href) Hrow Hnc.
  split_and!.
  - destruct Hsome as [W HW].
    destruct (step_watermark_mono dsn_foreign_keys db (Poll f) W HW) as (W' & HW' & _).
    by exists W'.
  - apply poll_cycle_keeps_watermark_inv; [done|done| |done].
    intros W HW. destruct (HJ W HW) as [?|[? _]]; lia.
  - apply (step_watermark_is_processed_id dsn_foreign_keys db (Poll f)); [|done].
    by intros ? [= <-].
  - intros i pc' Hi.
    assert (∃ pc, lookup_change db i = Some pc ∧ order_id pc' = order_id pc)
      as (pc & Hpc & Hid).
    { destruct (poll_cycle_lookup_change_cases f db i) as [He|[_ He]];
        rewrite He in Hi; [by exists pc'|].
      destruct (lookup_change db i) as [pc|]; [|done].
      injection Hi as <-. by exists pc. }
    destruct (Href i pc Hpc) as (k & Hk & Hex). exists k.
    split; [congruence|]. unfold lookup_order. by rewrite poll_cycle_orders.
Qed.

Lemma step_store_ok fk db o :
  store_ok db → op_without_defect db o → store_ok (step fk db o).
Proof.
  intros Hok Hop. destruct o as [f|f req|f req|f]; simpl in *.
  - destruct (initDB_keeps_view f db) as (HW & Hc & Ho & Hm).
    apply (store_ok_ext db); [|done..]. apply HW. by destruct Hok.
  - by apply handle_orders_store_ok.
  - by apply handle_priority_store_ok.
  - destruct Hop. by apply poll_cycle_store_ok.
Qed.

Lemma run_store_ok fk ops db :
  store_ok db → run_without_defect fk db ops → store_ok (run fk db ops).
Proof.
  revert db. induction ops as [|o ops IH]; intros db Hok Hrun; [done|].
  destruct Hrun as [Hop Hrun]. simpl. apply IH; [|done]. by apply step_store_ok.
Qed.

Lemma fresh_store_ok : store_ok fresh_store.
Proof.
  split_and!.
  - by exists 0.
  - intros W i pc _ Hi. unfold lookup_change in Hi. simpl in Hi.
    by rewrite lookup_empty in Hi.
  - intros W [= <-]. by left.
  - intros i pc Hi. unfold lookup_change in Hi. simpl in Hi.
    by rewrite lookup_empty in Hi.
Qed.

(** X20: no event is lost as long as neither defect is triggered.  From a
    store with its watermark row in which every matching event at or below
    the watermark is processed, the watermark is 0 or a processed event's
    id and every event names an order of the store (the freshly initialised
    store is one), any operations in which no scan and no UPDATE of a row
    fails, no failing [rows.Next] makes SQLite cancel the transaction of a
    cycle, and every escalation names an order of the store lead to such a
    store again, whatever else fails; and one more cycle without faults
    leaves every event whose order matches the filter processed. *)
Theorem X20_no_event_is_lost_without_defect (fk : bool) (ops : list op) (db : DB) :
  store_ok db → run_without_defect fk db ops →
  store_ok (run fk db ops) ∧
  ∀ i pc,
    lookup_change (poll_cycle no_poll_faults (run fk db ops)).1 i = Some pc →
    matches_filter (poll_cycle no_poll_faults (run fk db ops)).1 pc = true →
    processed pc = true.
Proof.
  intros Hok Hrun. pose proof (run_store_ok fk ops db Hok Hrun) as Hok'.
  split; [done|].
  destruct Hok' as ([W HW] & Hinv & _).
  by apply (fault_free_cycle_processes_all _ W).
Qed.

Lemma X20_witness :
  watermark_inv
    (run dsn_foreign_keys fresh_store
       [post ninja_order; escalate 1; Poll commit_fails;
        Startup no_init_faults; escalate 1]) ∧
  processed (PriorityChange (VInt 1) high true) = true.
Proof.
  destruct (X20_no_event_is_lost_without_defect dsn_foreign_keys
              [post ninja_order; escalate 1; Poll commit_fails;
               Startup no_init_faults; escalate 1]
              fresh_store fresh_store_ok) as [(_ & Hinv & _) Hall].
  - split; [exact I|].
    split; [exists 1; split; [reflexivity|eexists; reflexivity]|].
    split; [split; [intros i; split; reflexivity|reflexivity]|].
    split; [exact I|].
    split; [exists 1; split; [reflexivity|eexists; reflexivity]|exact I].
  - split; [exact Hinv|]. apply (Hall 2); reflexivity.
Defined.

(** ** Escalating an order that is not there *)

Lemma update_priority_missing id os :
  order_exists id os = false → update_priority id os = os.
Proof.
  destruct id as [k|s]; simpl; [|done]. intros Hno.
  apply map_eq. intros j. rewrite lookup_alter.
  destruct (decide (k = j)) as [->|]; [|done].
  destruct (os !! j) eqn:Hj; [|done].
  apply bool_decide_eq_false in Hno. destruct Hno. eauto.
Qed.

(** X21: as the connection is opened, an escalation that names no order
    of the store is not an error.  When no call fails and the event table
    can take a row, the handler answers 200, leaves every order as it is
    and commits an event row for the id it was given. *)
Theorem X21_escalation_of_a_missing_order (req : priority_request) (db : DB)
    (os : gmap Z order_row) (pcs : gmap Z priority_change) (k : Z) :
  pr_method req = PATCH → pr_parse_fails req = false →
  orders db = Some os → priority_changes db = Some pcs →
  next_rowid pcs = Some k →
  order_exists (pr_id req) os = false →
  handle_priority dsn_foreign_keys no_priority_faults req db =
  (MkDB (Some os) (Some (<[k := PriorityChange (pr_id req) high false]> pcs))
        (polling_state db), StatusOK).
Proof.
  intros Hm Hp Hos Hpcs Hk Hno. unfold handle_priority, insert_change.
  rewrite bool_decide_eq_false_2 by (by intros ?).
  rewrite Hp, Hos, Hpcs. simpl. rewrite Hk. simpl.
  by rewrite update_priority_missing.
Qed.

Lemma X21_witness :
  handle_priority dsn_foreign_keys no_priority_faults
    (PriorityRequest PATCH false (VInt 5)) two_pending =
  (MkDB (Some {[1 := set_high ninja_order]})
        (Some (<[3 := PriorityChange (VInt 5) high false]>
                 (<[2 := PriorityChange (VInt 1) high false]>
                    {[1 := PriorityChange (VInt 1) high false]})))
        (polling_state two_pending), StatusOK).
Proof.
  apply (X21_escalation_of_a_missing_order (PriorityRequest PATCH false (VInt 5))
           two_pending); vm_compute; reflexivity.
Defined.


(** ** The filter and the watermark of a committed cycle *)

Lemma matches_filter_mark_processed db pc :
  matches_filter db (mark_processed pc) = matches_filter db pc.
Proof. unfold matches_filter. by destruct (orders db). Qed.

(** X23: (1) a cycle, whatever its faults, neither marks nor changes an
    event whose order does not satisfy the filter.  (2) Every row marked by
    a cycle that is committed is in the store after it with
    processed = true, and its order satisfies the filter.  (3) From a
    watermark that is not negative, a committed cycle that changes the
    watermark sets it to the largest id it marked, the id of an event that
    is processed in the store after the cycle. *)
Theorem X23_filter_and_committed_watermark (f : poll_faults) (db : DB) :
  (∀ i pc,
     lookup_change db i = Some pc → matches_filter db pc = false →
     (i ∉ marked_ids (poll_cycle f db).2) ∧
     lookup_change (poll_cycle f db).1 i = Some pc) ∧
  (status (poll_cycle f db).2 = Committed →
   ∀ j, j ∈ marked_ids (poll_cycle f db).2 →
        ∃ pc', lookup_change (poll_cycle f db).1 j = Some pc' ∧
               processed pc' = true ∧ matches_filter db pc' = true) ∧
  (status (poll_cycle f db).2 = Committed →
   ∀ W W',
     watermark db = Some W → 0 ≤ W →
     watermark (poll_cycle f db).1 = Some W' → W' ≠ W →
     W' ∈ marked_ids (poll_cycle f db).2 ∧
     (∀ j, j ∈ marked_ids (poll_cycle f db).2 → j ≤ W') ∧
     ∃ pc', lookup_change (poll_cycle f db).1 W' = Some pc' ∧ processed pc' = true).
Proof.
  assert (Hset : status (poll_cycle f db).2 = Committed →
            ∀ j, j ∈ marked_ids (poll_cycle f db).2 →
                 ∃ pc', lookup_change (poll_cycle f db).1 j = Some pc' ∧
                        processed pc' = true ∧ matches_filter db pc' = true).
  { intros Hs j Hj.
    destruct (poll_cycle_Committed f db Hs) as (os & pcs & pcs' & W & Hcc).
    destruct (cc_marked_selected Hcc j Hj) as [_ (pc & Hpc & Hm & _)].
    exists (mark_processed pc). split_and!; [|done|].
    - rewrite (cc_lookup_change Hcc), decide_True by done.
      unfold lookup_change.
      by rewrite (cc_changes _ _ _ _ _ _ _ _ Hcc); simpl; rewrite Hpc.
    - rewrite matches_filter_mark_processed. unfold matches_filter.
      by rewrite (cc_orders _ _ _ _ _ _ _ _ Hcc). }
  split_and!; [|done|].
  - intros i pc Hi Hno.
    assert (Hnot : i ∉ marked_ids (poll_cycle f db).2)
      by by eapply matches_filter_false_unmarked.
    split; [done|]. by rewrite poll_cycle_unmarked.
  - intros Hs W W' HW Hpos HW' Hne.
    destruct (poll_cycle_Committed f db Hs) as (os & pcs & pcs' & W0 & Hcc).
    rewrite (cc_watermark _ _ _ _ _ _ _ _ Hcc) in HW. injection HW as ->.
    rewrite (cc_watermark' Hcc) in HW'. injection HW' as HW'.
    destruct (watermark_written (poll_cycle f db).2) as [m|] eqn:Hw; simpl in HW';
      [subst m|congruence].
    pose proof (cc_written_gt Hcc _ Hw) as Hgt.
    pose proof (cc_written_last Hcc _ Hw) as Hlast.
    destruct (last (marked_ids (poll_cycle f db).2)) as [m|] eqn:Hl; simpl in Hlast;
      [subst m|lia].
    assert (Hin : W' ∈ marked_ids (poll_cycle f db).2) by by eapply last_Some_elem_of.
    split_and!; [done| |].
    + intros j Hj. apply (cc_marked_le_last Hcc) in Hj. by rewrite Hl in Hj.
    + destruct (Hset Hs W' Hin) as (pc' & ? & ? & _). by exists pc'.
Qed.

(** In [widget_then_ninja] a cycle without faults leaves event 1, of the
    widget order, as it is, and moves the watermark to event 2, which it
    has processed. *)
Lemma X23_witness :
  lookup_change (poll_cycle no_poll_faults widget_then_ninja).1 1
    = Some (PriorityChange (VInt 1) high false) ∧
  watermark (poll_cycle no_poll_faults widget_then_ninja).1 = Some 2 ∧
  ∃ pc', lookup_change (poll_cycle no_poll_faults widget_then_ninja).1 2 = Some pc' ∧
         processed pc' = true.
Proof.
  destruct (X23_filter_and_committed_watermark no_poll_faults widget_then_ninja)
    as (H1 & _ & H3).
  destruct (H1 1 (PriorityChange (VInt 1) high false) eq_refl eq_refl) as [_ A].
  destruct (H3 eq_refl 0 2 eq_refl ltac:(lia) eq_refl ltac:(lia)) as (_ & _ & B).
  split; [exact A|]. split; [reflexivity|exact B].
Defined.

(** ** A failing UPDATE of the watermark *)

Lemma poll_cycle_set_watermark_fault_written f db :
  fail_set_watermark f = true → watermark_written (poll_cycle f db).2 = None.
Proof.
  intros Hf. unfold poll_cycle.
  destruct (fail_begin f); [done|].
  destruct (if fail_read_watermark f then _ else _) as [W|]; [|done].
  destruct (if fail_query f then _ else _) as [[os pcs]|]; [|done].
  cbv zeta. rewrite Hf, andb_false_r.
  destruct (fail_commit f); [destruct (tx_active _)|]; done.
Qed.

(** X9: a cycle in which the UPDATE of the watermark fails writes no
    watermark, and the watermark after the cycle is the one before it.
    When the commit fails with it, as it does on SQLite once the failing
    UPDATE has taken the transaction with it, and no failing call before
    had cancelled the transaction, the cycle is not committed and the store
    is as it was before the cycle: the events it had marked are pending
    again. *)
Theorem X9_failed_watermark_update (f : poll_faults) (db : DB) :
  fail_set_watermark f = true →
  watermark_written (poll_cycle f db).2 = None ∧
  watermark (poll_cycle f db).1 = watermark db ∧
  (fail_commit f = true → never_cancels f →
   status (poll_cycle f db).2 ≠ Committed ∧ (poll_cycle f db).1 = db).
Proof.
  intros Hf. split_and!.
  - by apply poll_cycle_set_watermark_fault_written.
  - by apply poll_cycle_set_watermark_fault.
  - intros Hc [Hn Hm].
    assert (Hs : status (poll_cycle f db).2 ≠ Committed)
      by (apply poll_cycle_fault_status; auto).
    split; [done|].
    apply poll_cycle_not_Committed; [|by rewrite Hn, andb_false_r|done].
    intros i. by rewrite Hm, andb_false_r.
Qed.

(** In [two_pending], a cycle in which the UPDATE of the watermark and the
    commit fail: both rows were marked, and both events are pending after
    it. *)
Lemma X9_witness :
  marked_ids
    (poll_cycle (PollFaults false false false None (λ _, false) (λ _, false) true true
                            no_cancels) two_pending).2 = [1; 2] ∧
  (poll_cycle (PollFaults false false false None (λ _, false) (λ _, false) true true
                          no_cancels) two_pending).1 = two_pending ∧
  lookup_change two_pending 1 = Some (PriorityChange (VInt 1) high false) ∧
  lookup_change two_pending 2 = Some (PriorityChange (VInt 1) high false).
Proof.
  split; [reflexivity|]. split; [|split; reflexivity].
  apply (X9_failed_watermark_update
           (PollFaults false false false None (λ _, false) (λ _, false) true true
                       no_cancels) two_pending eq_refl); [reflexivity|].
  split; [reflexivity|]. intros i. reflexivity.
Defined.
